(** * Backstage: task worker control loop and simple permission handler

    A shallow embedding of
    - [SimplePermissionHandler.ts] (plugins/permission-handler-simple), and
    - the [TaskWorker] class of the backend task scheduler,
    together with the properties of the specification that are settled
    against them. *)

From stdpp Require Import gmap strings pretty list fin_maps.
From Stdlib Require Import ZArith Lia Ascii.

Local Open Scope Z_scope.
Local Set Warnings "-register-all".

(* ===================================================================== *)
(** * SimplePermissionHandler *)
(* ===================================================================== *)

Module SimplePermissionHandler.

(** [AuthorizeResult] of permission-common. *)
Inductive AuthorizeResult := DENY | ALLOW | MAYBE.

(** The parts of a request that [handle] reads. *)
Record Permission := { name : string; isRead : bool }.
Record AuthorizeRequest := { permission : Permission; context : list (string * string) }.
Record BackstageIdentity := { id : string; token : option string }.
Record AuthorizeResponse := { result : AuthorizeResult }.

(** [handle(request, identity?)]: an identity, when given, is an object
    and therefore truthy; [None] is the omitted argument. *)
Definition handle (request : AuthorizeRequest)
           (identity : option BackstageIdentity) : AuthorizeResponse :=
  match identity with
  | Some _ => {| result := ALLOW |}
  | None =>
      if isRead (permission request)
      then {| result := ALLOW |}
      else {| result := DENY |}
  end.

(** ** authorizeFilters *)

Module Filters.

(** [EntityName] of catalog-model. *)
Record EntityName := { kind : string; namespace : string; name : string }.

(** The conditions [authorizeFilters] builds; the three builders of
    catalog-model are kept as constructors. *)
Inductive Condition :=
| isEntityOwner (owners : list EntityName)
| hasAnnotation (annotation : string)
| isEntityKind (kinds : list string).

Record AllOf := { allOf : list Condition }.
Record AnyOf := { anyOf : list AllOf }.

(** [AuthorizeFiltersResponse]: [conditions] is present on MAYBE only. *)
Record AuthorizeFiltersResponse := {
  result : AuthorizeResult;
  conditions : option AnyOf;
}.

(** A call returns or throws; the promise of an [async] method resolves
    or rejects accordingly. *)
Inductive Try (A : Type) :=
| Ok (a : A)
| Throws (e : string).
Arguments Ok {A} a.
Arguments Throws {A} e.

Section Handler.

(** [CatalogPermission.includes(permission)] and
    [parseEntityRef(ref, {defaultKind, defaultNamespace})] of
    catalog-model; the latter throws on a reference it cannot parse,
    the empty one included. *)
Variable CatalogPermission_includes : Permission → bool.
Variable parseEntityRef : string → string → string → Try EntityName.

(** The reference is parsed while the response is built, so a throw of
    [parseEntityRef] rejects the call. *)
Definition authorizeFilters (request : AuthorizeRequest)
           (identity : option BackstageIdentity) : Try AuthorizeFiltersResponse :=
  if CatalogPermission_includes (permission request) then
    match identity with
    | None => Ok {| result := DENY; conditions := None |}
    | Some identity =>
        match parseEntityRef (id identity) "user" "default" with
        | Ok owner =>
            Ok {| result := MAYBE;
                  conditions := Some {| anyOf := [
                    {| allOf := [ isEntityOwner [owner];
                                  hasAnnotation "backstage.io/view-url" ] |};
                    {| allOf := [ isEntityKind ["template"] ] |} ] |} |}
        | Throws e => Throws e
        end
    end
  else Ok {| result := DENY; conditions := None |}.

End Handler.

(** A sample catalog: one read and one write permission, and a parser
    that takes a non-empty reference as a bare name and throws on the
    empty one. *)
Definition sample_includes (p : Permission) : bool :=
  bool_decide (SimplePermissionHandler.name p ∈ ["catalog.entity.read"; "catalog.entity.delete"]).
Definition sample_parseEntityRef (ref defaultKind defaultNamespace : string)
  : Try EntityName :=
  if decide (ref = "") then Throws "Error: Entity reference must not be empty"
  else Ok {| kind := defaultKind; namespace := defaultNamespace; name := ref |}.
Definition request_catalog_delete : AuthorizeRequest :=
  {| permission := {| SimplePermissionHandler.name := "catalog.entity.delete"; isRead := false |};
     context := [] |}.
Definition identity_alice : BackstageIdentity := {| id := "alice"; token := None |}.
Definition identity_blank : BackstageIdentity := {| id := ""; token := None |}.

End Filters.

End SimplePermissionHandler.

(* ===================================================================== *)
(** * TaskWorker *)
(* ===================================================================== *)

Module TaskWorker.

(** ** Values *)

(** Settings travel as plain JavaScript values. *)
Inductive json :=
| JNull
| JBool (b : bool)
| JNumber (n : Z)
| JString (s : string)
| JArray (items : list json)
| JObject (fields : list (string * json)).

Fixpoint assoc (key : string) (fields : list (string * json)) : option json :=
  match fields with
  | [] => None
  | (k, v) :: rest => if decide (k = key) then Some v else assoc key rest
  end.

(** [settings.initialDelayDuration], typed [string | undefined] by
    [TaskSettingsV1]. *)
Definition initialDelayDuration (settings : json) : option string :=
  match settings with
  | JObject fields =>
      match assoc "initialDelayDuration" fields with
      | Some (JString s) => Some s
      | _ => None
      end
  | _ => None
  end.

(** A luxon [Duration], as milliseconds. *)
Definition Duration := Z.

(** [Duration.fromObject({ seconds: 5 })]. *)
Definition WORK_CHECK_FREQUENCY : Duration := 5000.

(** A call either returns a value or throws; a thrown value is kept in
    the form string interpolation gives it. *)
Inductive Outcome (A : Type) :=
| Returned (a : A)
| Thrown (e : string).
Arguments Returned {A} a.
Arguments Thrown {A} e.

(** What the worker takes from its runtime and from [./types]: the JSON
    built-ins, luxon's ISO parser and the zod schema of the settings. *)
Class Externals := {
  JSON_stringify : json → string;
  JSON_parse : string → Outcome json;
  Duration_fromISO : string → Duration;
  taskSettingsV1Schema_parse : json → Outcome json;
}.

(** ** The shared table *)

(** A row of [backstage_backend_common__tasks]; the [id] column is the
    primary key and is the key of the map below. *)
Record DbTasksRow := {
  settings_json : string;
  next_run_start_at : Z;
  current_run_ticket : option string;
}.

(** Modelled from the spec: [./CancelToken] is not part of the sources.
    Section 4.2: [create()] gives a new, un-cancelled signal; [cancel()]
    is idempotent, sets cancelled and releases anything awaiting the
    signal; once cancelled, every later wait resolves immediately. *)
Record CancelToken := { isCancelled : bool }.

Module CancelTokenOps.
Definition create : CancelToken := {| isCancelled := false |}.
Definition cancel (t : CancelToken) : CancelToken := {| isCancelled := true |}.
(** Whether [token.promise] has resolved. *)
Definition promise_resolved (t : CancelToken) : bool := isCancelled t.
End CancelTokenOps.

Inductive LogLevel := debug | info | warn.
Definition LogEntry : Type := LogLevel * string.

(** Where one call of [runLoop] stands: at [await this.runOnce()] with
    the query under way, at [await this.sleep(...)] with the timer due at
    [timerAt], or settled (its promise resolved, or rejected with [e]). *)
Inductive LoopState :=
| InPoll
| InSleep (timerAt : Z)
| Settled (o : Outcome unit).

(** Everything the worker reads or changes: the table of its database,
    the time (one clock serves the database and the timers), whether the
    database can be reached (and the error thrown when it cannot), the
    logger's output, the cancel token, the loops begun by [start] so far,
    and a count of the poll steps begun, kept for the statements below. *)
Record World := {
  rows : gmap string DbTasksRow;
  clock : Z;
  outage : option string;
  logger : list LogEntry;
  cancelToken : CancelToken;
  loops : list LoopState;
  polls : nat;
}.

Definition set_rows (f : gmap string DbTasksRow → gmap string DbTasksRow) (w : World) : World :=
  {| rows := f (rows w); clock := clock w; outage := outage w; logger := logger w;
     cancelToken := cancelToken w; loops := loops w; polls := polls w |}.
Definition set_clock (f : Z → Z) (w : World) : World :=
  {| rows := rows w; clock := f (clock w); outage := outage w; logger := logger w;
     cancelToken := cancelToken w; loops := loops w; polls := polls w |}.
Definition set_outage (o : option string) (w : World) : World :=
  {| rows := rows w; clock := clock w; outage := o; logger := logger w;
     cancelToken := cancelToken w; loops := loops w; polls := polls w |}.
Definition set_logger (f : list LogEntry → list LogEntry) (w : World) : World :=
  {| rows := rows w; clock := clock w; outage := outage w; logger := f (logger w);
     cancelToken := cancelToken w; loops := loops w; polls := polls w |}.
Definition set_cancelToken (f : CancelToken → CancelToken) (w : World) : World :=
  {| rows := rows w; clock := clock w; outage := outage w; logger := logger w;
     cancelToken := f (cancelToken w); loops := loops w; polls := polls w |}.
Definition set_loops (f : list LoopState → list LoopState) (w : World) : World :=
  {| rows := rows w; clock := clock w; outage := outage w; logger := logger w;
     cancelToken := cancelToken w; loops := f (loops w); polls := polls w |}.
Definition set_polls (f : nat → nat) (w : World) : World :=
  {| rows := rows w; clock := clock w; outage := outage w; logger := logger w;
     cancelToken := cancelToken w; loops := loops w; polls := f (polls w) |}.

(** ** Asynchronous code as a state-and-exception monad *)

Definition M (A : Type) : Type := World → Outcome A * World.

#[export] Instance M_ret : MRet M := λ A a w, (Returned a, w).
#[export] Instance M_bind : MBind M := λ A B f m w,
  match m w with
  | (Returned a, w') => f a w'
  | (Thrown e, w') => (Thrown e, w')
  end.

Definition throw {A} (e : string) : M A := λ w, (Thrown e, w).

(** [new Error(message)], as it reads once interpolated. *)
Definition Error (message : string) : string := "Error: " +:+ message.

(** [try { body } catch (e) { handler(e) }] *)
Definition try_catch {A} (body : M A) (handler : string → M A) : M A := λ w,
  match body w with
  | (Returned a, w') => (Returned a, w')
  | (Thrown e, w') => handler e w'
  end.

Definition lift {A} (o : Outcome A) : M A := λ w, (o, w).
Definition gets {A} (f : World → A) : M A := λ w, (Returned (f w), w).
Definition modify (f : World → World) : M unit := λ w, (Returned (), f w).
Definition log (level : LogLevel) (message : string) : M unit :=
  modify (set_logger (λ l, l ++ [(level, message)])).

(** ** Knex *)

(** [knex.fn.now()], as the database evaluates it. *)
Definition knex_fn_now : M Z := gets clock.

(** Any query throws while the database cannot be reached. *)
Definition knex_query {A} (q : World → Outcome A * World) : M A := λ w,
  match outage w with
  | Some e => (Thrown e, w)
  | None => q w
  end.

(** [insert({id, settings_json, next_run_start_at})
      .onConflict('id').merge(['settings_json'])]:
    a new row takes the given columns and the column default (null) for
    the ticket; on a conflicting [id] only [settings_json] is replaced. *)
Definition insert_onConflict_merge_settings_json
           (id sj : string) (next_run : Z) : M unit :=
  knex_query (modify (set_rows (λ t,
    match t !! id with
    | Some old =>
        <[id := {| settings_json := sj;
                   next_run_start_at := next_run_start_at old;
                   current_run_ticket := current_run_ticket old |}]> t
    | None =>
        <[id := {| settings_json := sj;
                   next_run_start_at := next_run;
                   current_run_ticket := None |}]> t
    end))).

(** [.where('id', '=', id).where('next_run_start_at', '<', now())
      .whereNull('current_run_ticket').select(['settings_json'])] *)
Definition ready_row (now : Z) (r : DbTasksRow) : bool :=
  bool_decide (next_run_start_at r < now) && bool_decide (current_run_ticket r = None).

Definition select_ready_settings_json (id : string) : M (list string) :=
  knex_query (gets (λ w,
    match rows w !! id with
    | Some r => if ready_row (clock w) r then [settings_json r] else []
    | None => []
    end)).

(** Modelled from the spec: [nowPlus] of [./util] is not part of the
    sources. Section 4.1: a new record has
    [next_run_start_at = now + initialDelayDuration] (or [now] if
    absent). *)
Definition nowPlus (duration : option Duration) (now : Z) : Z :=
  match duration with
  | Some d => now + d
  | None => now
  end.

(** ** The worker *)

(** The constructor's [taskId] and [fn]; the knex handle, the logger and
    the cancel token it also holds live in the [World]. *)
Record TaskWorker := { taskId : string; fn : M unit }.

Inductive FindResult :=
| FNotReadyYet
| FAbort
| FReady (settings : json).

Inductive RunResult :=
| RNotReadyYet
| RAbort
| RFailed
| RCompleted.

#[export] Instance RunResult_eq_dec : EqDecision RunResult.
Proof. solve_decision. Defined.

Section Worker.
Context `{rt : Externals}.
Variable this : TaskWorker.

(** [settings.initialDelayDuration ? Duration.fromISO(...) : undefined];
    the empty string is falsy. *)
Definition initialDelay (settings : json) : option Duration :=
  match initialDelayDuration settings with
  | Some s => if bool_decide (s = "") then None else Some (Duration_fromISO s)
  | None => None
  end.

Definition persistTask (settings : json) : M unit :=
  _ ← lift (taskSettingsV1Schema_parse settings);
  let initialDelay := initialDelay settings in
  try_catch
    (now ← knex_fn_now;
     insert_onConflict_merge_settings_json
       (taskId this) (JSON_stringify settings) (nowPlus initialDelay now))
    (λ e, throw (Error ("Failed to persist task, " +:+ e))).

(** The world after the upsert of [persistTask] has gone through. *)
Definition upserted (settings : json) (w : World) : World :=
  set_rows (λ t,
    match t !! taskId this with
    | Some old =>
        <[taskId this := {| settings_json := JSON_stringify settings;
                            next_run_start_at := next_run_start_at old;
                            current_run_ticket := current_run_ticket old |}]> t
    | None =>
        <[taskId this := {| settings_json := JSON_stringify settings;
                            next_run_start_at := nowPlus (initialDelay settings) (clock w);
                            current_run_ticket := None |}]> t
    end) w.

Definition findReadyTask : M FindResult :=
  fetched ← try_catch
    (rows ← select_ready_settings_json (taskId this);
     match rows with
     | [] => mret (inl FNotReadyYet)
     | settingsJson :: _ => mret (inr settingsJson)
     end)
    (λ e,
       log warn ("Task worker failed to fetch task information; will try again later, " +:+ e);;
       mret (inl FNotReadyYet));
  match fetched with
  | inl early => mret early
  | inr settingsJson =>
      try_catch
        (parsed ← lift (JSON_parse settingsJson);
         settings ← lift (taskSettingsV1Schema_parse parsed);
         mret (FReady settings))
        (λ e,
           log info ("No longer able to parse task settings; aborting and assuming that a newer version of the task has been issued and being handled by other workers, " +:+ e);;
           mret FAbort)
  end.

Definition runOnce : M RunResult :=
  findResult ← findReadyTask;
  match findResult with
  | FNotReadyYet => mret RNotReadyYet
  | FAbort => mret RAbort
  | FReady _ => mret RCompleted
  end.

(** [sleep(duration)] races a timer against the token's promise; the
    await is pending until one of them is settled. *)
Definition sleep (duration : Duration) : M Z :=
  gets (λ w, clock w + duration).

Definition sleep_settled (timerAt : Z) (w : World) : bool :=
  bool_decide (timerAt ≤ clock w)
  || CancelTokenOps.promise_resolved (cancelToken w).

(** The handlers [start] attaches to the loop's promise with [.then]:
    a loop that returns is logged as finished, one that throws as
    failed. *)
Definition settle (o : Outcome unit) : M LoopState :=
  match o with
  | Returned _ => log debug ("Task worker finished: " +:+ taskId this)
  | Thrown e => log warn ("Task worker failed unexpectedly, " +:+ e)
  end;;
  mret (Settled o).

(** [while (!this.cancelToken.isCancelled) { ... await this.runOnce()]:
    the test of the loop; when it passes, a poll step begins. *)
Definition runLoop_test : M LoopState :=
  token ← gets cancelToken;
  if isCancelled token then settle (Returned ())
  else modify (set_polls S);; mret InPoll.

(** [const runResult = await this.runOnce();
     if (runResult.result === 'abort') { return; }
     await this.sleep(WORK_CHECK_FREQUENCY);] *)
Definition runLoop_polled : M LoopState :=
  try_catch
    (runResult ← runOnce;
     match runResult with
     | RAbort => settle (Returned ())
     | _ => timerAt ← sleep WORK_CHECK_FREQUENCY; mret (InSleep timerAt)
     end)
    (λ e, settle (Thrown e)).

(** A loop continues from the [await] it is suspended at. *)
Definition runLoop_resume (st : LoopState) : M LoopState :=
  match st with
  | InPoll => runLoop_polled
  | InSleep timerAt =>
      settled ← gets (sleep_settled timerAt);
      if settled : bool then runLoop_test else mret (InSleep timerAt)
  | Settled o => mret (Settled o)
  end.

(** [this.runLoop().then(...)]: the call runs the loop up to its first
    [await]; from there on it is resumed by the scheduler. *)
Definition runLoop : M unit :=
  st ← runLoop_test;
  modify (set_loops (λ l, l ++ [st])).

Definition start (settings : json) : M unit :=
  persistTask settings;;
  log debug ("Task worker starting: " +:+ taskId this +:+ ", " +:+ JSON_stringify settings);;
  runLoop.

Definition stop : M unit :=
  modify (set_cancelToken CancelTokenOps.cancel).

(** ** Vocabulary for the poll step *)

Definition warn_fetch (e : string) : LogEntry :=
  (warn, "Task worker failed to fetch task information; will try again later, " +:+ e).

Definition info_abort (e : string) : LogEntry :=
  (info, "No longer able to parse task settings; aborting and assuming that a newer version of the task has been issued and being handled by other workers, " +:+ e).

Definition logged (entry : LogEntry) (w : World) : World :=
  set_logger (λ l, l ++ [entry]) w.

(** The stored payload can be read back: it is JSON and fits the schema. *)
Definition parses (settingsJson : string) (settings : json) : Prop :=
  ∃ parsed, JSON_parse settingsJson = Returned parsed ∧
            taskSettingsV1Schema_parse parsed = Returned settings.

(** The stored payload cannot be read back, with error [e]. *)
Definition unparsable (settingsJson : string) (e : string) : Prop :=
  JSON_parse settingsJson = Thrown e ∨
  ∃ parsed, JSON_parse settingsJson = Returned parsed ∧
            taskSettingsV1Schema_parse parsed = Thrown e.

(** The row the poll looks for: due and unclaimed. *)
Definition eligible (w : World) (r : DbTasksRow) : Prop :=
  rows w !! taskId this = Some r ∧
  next_run_start_at r < clock w ∧
  current_run_ticket r = None.

Definition log_finished : LogEntry :=
  (debug, "Task worker finished: " +:+ taskId this).

(** [w'] differs from [w] at most in the log, the loops and the poll count. *)
Definition same_store (w w' : World) : Prop :=
  rows w' = rows w ∧ clock w' = clock w ∧ outage w' = outage w ∧
  cancelToken w' = cancelToken w.

(** ** What happens around the worker *)

Inductive Event :=
| Schedule (i : nat)         (* loop [i] gets to run *)
| Stop                       (* somebody calls [stop()] *)
| Elapse (ms : N)            (* time passes *)
| Outage (e : option string) (* the database goes away or comes back *)
| ForeignWrite (f : gmap string DbTasksRow → gmap string DbTasksRow).

Definition schedule (i : nat) (w : World) : World :=
  match loops w !! i with
  | Some st =>
      match runLoop_resume st w with
      | (Returned st', w') => set_loops (λ l, <[i := st']> l) w'
      | (Thrown _, w') => w'
      end
  | None => w
  end.

Definition step (ev : Event) (w : World) : World :=
  match ev with
  | Schedule i => schedule i w
  | Stop => (stop w).2
  | Elapse ms => set_clock (λ t, t + Z.of_N ms) w
  | Outage e => set_outage e w
  | ForeignWrite f => set_rows f w
  end.

Definition exec (evs : list Event) (w : World) : World :=
  foldl (λ w ev, step ev w) w evs.

Definition is_foreign_write (ev : Event) : bool :=
  match ev with ForeignWrite _ => true | _ => false end.

End Worker.

(** ** Sample runtime, worker and worlds

    One concrete choice of the externals, for evaluating the worker on
    explicit inputs. *)

Definition dquote : string := String "034"%char EmptyString.

(** [JSON.stringify] on values whose strings need no escaping. *)
Fixpoint sample_stringify (v : json) : string :=
  match v with
  | JNull => "null"
  | JBool true => "true"
  | JBool false => "false"
  | JNumber n => pretty n
  | JString s => dquote +:+ s +:+ dquote
  | JArray items =>
      "[" +:+
      (fix go (l : list json) : string :=
         match l with
         | [] => ""
         | x :: rest =>
             match rest with
             | [] => sample_stringify x
             | _ => sample_stringify x +:+ "," +:+ go rest
             end
         end) items +:+ "]"
  | JObject fields =>
      "{" +:+
      (fix go (l : list (string * json)) : string :=
         match l with
         | [] => ""
         | (k, x) :: rest =>
             match rest with
             | [] => dquote +:+ k +:+ dquote +:+ ":" +:+ sample_stringify x
             | _ => dquote +:+ k +:+ dquote +:+ ":" +:+ sample_stringify x +:+ "," +:+ go rest
             end
         end) fields +:+ "}"
  end.

(** The settings of the specification's scenario:
    [{initialDelayDuration: 'PT0S'}]; a variant with a delay of five
    seconds, and one without the field. *)
Definition settings_PT0S : json := JObject [("initialDelayDuration", JString "PT0S")].
Definition settings_PT5S : json := JObject [("initialDelayDuration", JString "PT5S")].
Definition settings_plain : json := JObject [].

(** [JSON.parse] on the payloads that occur below; the remaining one,
    ["not json"], is a syntax error for the real parser as well. *)
Definition sample_parse (s : string) : Outcome json :=
  if decide (s = sample_stringify settings_PT0S) then Returned settings_PT0S
  else if decide (s = sample_stringify settings_PT5S) then Returned settings_PT5S
  else if decide (s = sample_stringify settings_plain) then Returned settings_plain
  else Thrown "SyntaxError: Unexpected token in JSON"%string.

(** [Duration.fromISO] on the durations that occur below. *)
Definition sample_fromISO (s : string) : Duration :=
  if decide (s = "PT0S") then 0
  else if decide (s = "PT5S") then 5000
  else if decide (s = "PT1M") then 60000
  else 0.

(** A schema with the one optional field the worker reads. *)
Definition sample_schema_parse (v : json) : Outcome json :=
  match v with
  | JObject fields =>
      match assoc "initialDelayDuration" fields with
      | None => Returned v
      | Some (JString s) =>
          if decide (s ∈ ["PT0S"; "PT5S"; "PT1M"]) then Returned v
          else Thrown "ZodError: Invalid duration"
      | Some _ => Thrown "ZodError: Expected string"
      end
  | _ => Thrown "ZodError: Expected object"
  end.

Definition sample_externals : Externals := {|
  JSON_stringify := sample_stringify;
  JSON_parse := sample_parse;
  Duration_fromISO := sample_fromISO;
  taskSettingsV1Schema_parse := sample_schema_parse;
|}.

(** A worker for task ["t1"] whose work function leaves a trace. *)
Definition worker_t1 : TaskWorker :=
  {| taskId := "t1"; fn := log info "work done" |}.

(** A fresh process at time 1000 with an empty table. *)
Definition world0 : World :=
  {| rows := ∅; clock := 1000; outage := None; logger := [];
     cancelToken := CancelTokenOps.create; loops := []; polls := 0 |}.

(** The table holds ["t1"], due since time 0 and unclaimed. *)
Definition world_due : World :=
  set_rows (λ _, {[ "t1" := {| settings_json := sample_stringify settings_PT0S;
                               next_run_start_at := 0;
                               current_run_ticket := None |} ]}) world0.

(** ["t1"] carries a payload that is not JSON and is due at 5000 only. *)
Definition world_superseded_not_due : World :=
  set_rows (λ _, {[ "t1" := {| settings_json := "not json";
                               next_run_start_at := 5000;
                               current_run_ticket := None |} ]}) world0.

(** ["t1"] carries a payload that is not JSON and is due. *)
Definition world_superseded_due : World :=
  set_rows (λ _, {[ "t1" := {| settings_json := "not json";
                               next_run_start_at := 0;
                               current_run_ticket := None |} ]}) world0.

(** ["t1"] is held by another worker under ticket ["abc"], next due at 7000. *)
Definition world_claimed : World :=
  set_rows (λ _, {[ "t1" := {| settings_json := sample_stringify settings_PT0S;
                               next_run_start_at := 7000;
                               current_run_ticket := Some "abc" |} ]}) world0.

(** The same worlds with one loop of the worker, awaiting its poll or
    asleep until 6000. *)
Definition looping (st : LoopState) (w : World) : World :=
  set_loops (λ _, [st]) w.

(** The database of [world_due] cannot be reached. *)
Definition world_offline : World :=
  set_outage (Some "Error: connect ECONNREFUSED"%string) world_due.

Definition world_loop_superseded : World := looping InPoll world_superseded_due.
Definition world_loop_not_due : World := looping InPoll world_superseded_not_due.
Definition world_loop_offline : World := looping InPoll world_offline.
Definition world_asleep : World := looping (InSleep 6000) world_due.

Definition syntax_error : string := "SyntaxError: Unexpected token in JSON".
Definition connect_error : string := "Error: connect ECONNREFUSED".

Definition row_due : DbTasksRow :=
  {| settings_json := sample_stringify settings_PT0S;
     next_run_start_at := 0; current_run_ticket := None |}.
Definition row_claimed : DbTasksRow :=
  {| settings_json := sample_stringify settings_PT0S;
     next_run_start_at := 7000; current_run_ticket := Some "abc" |}.
Definition row_superseded (next_run : Z) : DbTasksRow :=
  {| settings_json := "not json";
     next_run_start_at := next_run; current_run_ticket := None |}.

(** ** The poll step in the words of the specification

    Section 4.1, steps 3 to 5: the step claims exclusivity by setting
    the ticket to a fresh token, invokes the work function under the
    claim, and then clears the ticket and recomputes
    [next_run_start_at] from the cadence (so that it lies no earlier
    than the time of the step). *)
Definition spec_step_ran (this : TaskWorker) (w w' : World) : Prop :=
  ∃ (r : DbTasksRow) (ticket : string) (claimed worked : World) (next : Z),
    rows w !! taskId this = Some r ∧
    claimed = set_rows (λ t, <[taskId this :=
                 {| settings_json := settings_json r;
                    next_run_start_at := next_run_start_at r;
                    current_run_ticket := Some ticket |}]> t) w ∧
    worked = (fn this claimed).2 ∧
    clock w ≤ next ∧
    w' = set_rows (λ t, <[taskId this :=
                 {| settings_json := settings_json r;
                    next_run_start_at := next;
                    current_run_ticket := None |}]> t) worked.

(** ** Vocabulary for runs of the loops *)

(** The time that passes during a sequence of events. *)
Definition elapsed (evs : list Event) : Z :=
  foldr (λ ev acc, match ev with Elapse ms => Z.of_N ms + acc | _ => acc end) 0 evs.

(** The loop's promise was rejected. *)
Definition rejected (st : LoopState) : bool :=
  match st with
  | Settled (Thrown _) => true
  | _ => false
  end.

(** Whether a loop in state [st] can still begin a poll by time
    [deadline] when no more than [WORK_CHECK_FREQUENCY] is left until
    then: only a sleeper whose timer falls due in time can. *)
Definition wake_budget (deadline : Z) (st : LoopState) : nat :=
  match st with
  | InSleep timerAt => if bool_decide (timerAt ≤ deadline) then 1 else 0
  | _ => 0
  end.

Definition log_starting `{rt : Externals} (this : TaskWorker) (settings : json) : LogEntry :=
  (debug, "Task worker starting: " +:+ taskId this +:+ ", " +:+ JSON_stringify settings).

(* =================================================================== *)
(** ** Properties *)
(* =================================================================== *)

Section Properties.
Context `{rt : Externals}.
Variable this : TaskWorker.

(** *** Evaluating the monad *)

Lemma bind_returned {A B} (m : M A) (f : A → M B) w a w' :
  m w = (Returned a, w') → (m ≫= f) w = f a w'.
Proof. intros E. unfold mbind, M_bind. by rewrite E. Qed.

Lemma bind_thrown {A B} (m : M A) (f : A → M B) w e w' :
  m w = (Thrown e, w') → (m ≫= f) w = (Thrown e, w').
Proof. intros E. unfold mbind, M_bind. by rewrite E. Qed.

Lemma world_eta w :
  {| rows := rows w; clock := clock w; outage := outage w; logger := logger w;
     cancelToken := cancelToken w; loops := loops w; polls := polls w |} = w.
Proof. by destruct w. Qed.

(** *** persistTask *)

Lemma persistTask_invalid settings w e :
  taskSettingsV1Schema_parse settings = Thrown e →
  persistTask this settings w = (Thrown e, w).
Proof.
  intros E. unfold persistTask. apply bind_thrown. unfold lift. by rewrite E.
Qed.

Lemma persistTask_outage settings w v e :
  taskSettingsV1Schema_parse settings = Returned v →
  outage w = Some e →
  persistTask this settings w = (Thrown (Error ("Failed to persist task, " +:+ e)), w).
Proof.
  intros E O. unfold persistTask.
  erewrite bind_returned; [| unfold lift; by rewrite E].
  unfold try_catch, knex_fn_now, gets, insert_onConflict_merge_settings_json, knex_query.
  unfold mbind, M_bind. by rewrite O.
Qed.

Lemma persistTask_ok settings w v :
  taskSettingsV1Schema_parse settings = Returned v →
  outage w = None →
  persistTask this settings w = (Returned (), upserted this settings w).
Proof.
  intros E O. unfold persistTask.
  erewrite bind_returned; [| unfold lift; by rewrite E].
  unfold try_catch, knex_fn_now, gets, insert_onConflict_merge_settings_json, knex_query.
  unfold mbind, M_bind. by rewrite O.
Qed.

(** *** findReadyTask and runOnce *)

Lemma eligible_ready w r : eligible this w r → ready_row (clock w) r = true.
Proof.
  intros (_ & Hdue & Hfree). unfold ready_row.
  by rewrite !bool_decide_eq_true_2.
Qed.

Lemma findReadyTask_outage w e :
  outage w = Some e →
  findReadyTask this w = (Returned FNotReadyYet, logged (warn_fetch e) w).
Proof.
  intros O. unfold findReadyTask, try_catch, select_ready_settings_json, knex_query.
  unfold mbind, M_bind. by rewrite O.
Qed.

Lemma findReadyTask_no_row w :
  outage w = None →
  (∀ r, ¬ eligible this w r) →
  findReadyTask this w = (Returned FNotReadyYet, w).
Proof.
  intros O N. unfold findReadyTask, try_catch, select_ready_settings_json, knex_query, gets.
  unfold mbind, M_bind. rewrite O.
  destruct (rows w !! taskId this) as [r|] eqn:R; [|done].
  destruct (ready_row (clock w) r) eqn:Rdy; [|done].
  exfalso. apply (N r). unfold ready_row in Rdy.
  apply andb_true_iff in Rdy as [D F].
  apply bool_decide_eq_true_1 in D. apply bool_decide_eq_true_1 in F. done.
Qed.

Lemma findReadyTask_ready w r settings :
  outage w = None →
  eligible this w r →
  parses (settings_json r) settings →
  findReadyTask this w = (Returned (FReady settings), w).
Proof.
  intros O E (parsed & P & S).
  pose proof (eligible_ready _ _ E) as Rdy. destruct E as (R & _).
  unfold findReadyTask, try_catch, select_ready_settings_json, knex_query, gets, lift.
  unfold mbind, M_bind. rewrite O, R, Rdy. simpl. by rewrite P, S.
Qed.

Lemma findReadyTask_abort w r e :
  outage w = None →
  eligible this w r →
  unparsable (settings_json r) e →
  findReadyTask this w = (Returned FAbort, logged (info_abort e) w).
Proof.
  intros O E U.
  pose proof (eligible_ready _ _ E) as Rdy. destruct E as (R & _).
  unfold findReadyTask, try_catch, select_ready_settings_json, knex_query, gets, lift.
  unfold mbind, M_bind. rewrite O, R, Rdy. simpl.
  destruct U as [P | (parsed & P & S)].
  - by rewrite P.
  - by rewrite P, S.
Qed.

Lemma runOnce_outage w e :
  outage w = Some e →
  runOnce this w = (Returned RNotReadyYet, logged (warn_fetch e) w).
Proof. intros O. unfold runOnce. by erewrite bind_returned; [| by apply findReadyTask_outage]. Qed.

Lemma runOnce_no_row w :
  outage w = None → (∀ r, ¬ eligible this w r) →
  runOnce this w = (Returned RNotReadyYet, w).
Proof. intros O N. unfold runOnce. by erewrite bind_returned; [| by apply findReadyTask_no_row]. Qed.

Lemma runOnce_ready w r settings :
  outage w = None → eligible this w r → parses (settings_json r) settings →
  runOnce this w = (Returned RCompleted, w).
Proof. intros O E P. unfold runOnce. by erewrite bind_returned; [| by eapply findReadyTask_ready]. Qed.

Lemma runOnce_abort w r e :
  outage w = None → eligible this w r → unparsable (settings_json r) e →
  runOnce this w = (Returned RAbort, logged (info_abort e) w).
Proof. intros O E U. unfold runOnce. by erewrite bind_returned; [| by eapply findReadyTask_abort]. Qed.

(** [runOnce] always returns, never with ['failed'], and writes at
    most one log entry. *)
Lemma runOnce_total w :
  ∃ res w', runOnce this w = (Returned res, w') ∧
            res ≠ RFailed ∧
            (w' = w ∨ ∃ entry, w' = logged entry w).
Proof.
  destruct (outage w) as [e|] eqn:O.
  { eexists _, _. split; [by apply runOnce_outage|]. split; [done|]. right. by eexists. }
  unfold runOnce, findReadyTask, try_catch, select_ready_settings_json, knex_query, gets, lift.
  unfold mbind, M_bind. rewrite O.
  destruct (rows w !! taskId this) as [r|]; simpl;
    [destruct (ready_row (clock w) r); simpl|].
  - destruct (JSON_parse (settings_json r)) as [parsed|e]; simpl.
    + destruct (taskSettingsV1Schema_parse parsed) as [settings|e]; simpl.
      * eexists _, _. split; [done|]. split; [done|]. by left.
      * eexists _, _. split; [done|]. split; [done|]. right. by eexists.
    + eexists _, _. split; [done|]. split; [done|]. right. by eexists.
  - eexists _, _. split; [done|]. split; [done|]. by left.
  - eexists _, _. split; [done|]. split; [done|]. by left.
Qed.

(** *** The loop *)

Lemma settle_returned w :
  settle this (Returned ()) w
  = (Returned (Settled (Returned ())), logged (log_finished this) w).
Proof. done. Qed.

Lemma runLoop_test_cancelled w :
  isCancelled (cancelToken w) = true →
  runLoop_test this w = (Returned (Settled (Returned ())), logged (log_finished this) w).
Proof.
  intros C. unfold runLoop_test, gets. unfold mbind at 1, M_bind at 1. by rewrite C.
Qed.

Lemma runLoop_test_live w :
  isCancelled (cancelToken w) = false →
  runLoop_test this w = (Returned InPoll, set_polls S w).
Proof.
  intros C. unfold runLoop_test, gets. unfold mbind at 1, M_bind at 1. by rewrite C.
Qed.

Lemma runLoop_polled_abort w w' :
  runOnce this w = (Returned RAbort, w') →
  runLoop_polled this w = (Returned (Settled (Returned ())), logged (log_finished this) w').
Proof.
  intros R. unfold runLoop_polled, try_catch. unfold mbind at 1, M_bind at 1. by rewrite R.
Qed.

Lemma runLoop_polled_sleep w res w' :
  runOnce this w = (Returned res, w') →
  res ≠ RAbort →
  runLoop_polled this w = (Returned (InSleep (clock w' + WORK_CHECK_FREQUENCY)), w').
Proof.
  intros R N. unfold runLoop_polled, try_catch. unfold mbind at 1, M_bind at 1.
  rewrite R. by destruct res.
Qed.

Lemma runLoop_resume_awake timerAt w :
  sleep_settled timerAt w = true →
  runLoop_resume this (InSleep timerAt) w = runLoop_test this w.
Proof.
  intros S. simpl. unfold gets. unfold mbind at 1, M_bind at 1. by rewrite S.
Qed.

Lemma runLoop_resume_asleep timerAt w :
  sleep_settled timerAt w = false →
  runLoop_resume this (InSleep timerAt) w = (Returned (InSleep timerAt), w).
Proof.
  intros S. simpl. unfold gets. unfold mbind at 1, M_bind at 1. by rewrite S.
Qed.

Lemma same_store_refl w : same_store w w.
Proof. by repeat split. Qed.

(** The test of the loop always hands back a loop state; it leaves the
    table, the clock and the token alone, and begins no poll once the
    token is cancelled. *)
Lemma runLoop_test_frame w :
  ∃ st w', runLoop_test this w = (Returned st, w') ∧
           same_store w w' ∧ loops w' = loops w ∧
           (isCancelled (cancelToken w) = true → polls w' = polls w).
Proof.
  destruct (isCancelled (cancelToken w)) eqn:C.
  - eexists _, _. split; [by apply runLoop_test_cancelled|]. by repeat split.
  - eexists _, _. split; [by apply runLoop_test_live|]. by repeat split.
Qed.

(** So does the rest of a turn, which begins no poll at all. *)
Lemma runLoop_polled_frame w :
  ∃ st w', runLoop_polled this w = (Returned st, w') ∧
           same_store w w' ∧ loops w' = loops w ∧ polls w' = polls w.
Proof.
  destruct (runOnce_total w) as (res & w' & R & _ & Hw').
  assert (same_store w w' ∧ loops w' = loops w ∧ polls w' = polls w) as (Hs & Hl & Hp).
  { destruct Hw' as [-> | [entry ->]]; by repeat split. }
  destruct (decide (res = RAbort)) as [-> | N].
  - eexists _, _. split; [by apply (runLoop_polled_abort _ _ R)|].
    destruct Hs as (?&?&?&?). by repeat split.
  - eexists _, _. split; [by apply (runLoop_polled_sleep _ _ _ R N)|]. done.
Qed.

Lemma runLoop_resume_frame st w :
  ∃ st' w', runLoop_resume this st w = (Returned st', w') ∧
            same_store w w' ∧ loops w' = loops w ∧
            (isCancelled (cancelToken w) = true → polls w' = polls w).
Proof.
  destruct st as [|timerAt|o].
  - destruct (runLoop_polled_frame w) as (st' & w' & R & ? & ? & ?).
    exists st', w'. split; [exact R|]. split; [done|]. split; [done|]. done.
  - destruct (sleep_settled timerAt w) eqn:S.
    + rewrite (runLoop_resume_awake _ _ S). apply runLoop_test_frame.
    + rewrite (runLoop_resume_asleep _ _ S). eexists _, _. split; [done|]. by repeat split.
  - eexists _, _. split; [done|]. by repeat split.
Qed.

Lemma schedule_at i st w st' w' :
  loops w !! i = Some st →
  runLoop_resume this st w = (Returned st', w') →
  schedule this i w = set_loops (λ l, <[i := st']> l) w'.
Proof. intros L R. unfold schedule. by rewrite L, R. Qed.

Lemma schedule_frame i w :
  same_store w (schedule this i w) ∧
  (isCancelled (cancelToken w) = true → polls (schedule this i w) = polls w).
Proof.
  unfold schedule. destruct (loops w !! i) as [st|]; [|by repeat split].
  destruct (runLoop_resume_frame st w) as (st' & w' & -> & Hs & _ & Hp).
  destruct Hs as (?&?&?&?). by repeat split.
Qed.

(** A settled loop is never resumed. *)
Lemma schedule_settled i w o :
  loops w !! i = Some (Settled o) → schedule this i w = w.
Proof.
  intros L. unfold schedule. rewrite L. simpl.
  unfold set_loops. rewrite (list_insert_id _ _ _ L). apply world_eta.
Qed.

(** A loop that stays asleep leaves the world as it is. *)
Lemma schedule_asleep i w timerAt :
  loops w !! i = Some (InSleep timerAt) →
  sleep_settled timerAt w = false →
  schedule this i w = w.
Proof.
  intros L S. rewrite (schedule_at _ _ _ _ _ L (runLoop_resume_asleep _ _ S)).
  unfold set_loops. rewrite (list_insert_id _ _ _ L). apply world_eta.
Qed.

Lemma step_cancelled ev w :
  isCancelled (cancelToken w) = true →
  isCancelled (cancelToken (step this ev w)) = true ∧
  polls (step this ev w) = polls w.
Proof.
  intros C. destruct ev as [i| |ms|e|f]; simpl; try done.
  destruct (schedule_frame i w) as ((_&_&_&->) & Hp). auto.
Qed.

(** Once the token is cancelled it stays so, and no poll begins. *)
Lemma exec_cancelled evs w :
  isCancelled (cancelToken w) = true →
  isCancelled (cancelToken (exec this evs w)) = true ∧
  polls (exec this evs w) = polls w.
Proof.
  revert w. induction evs as [|ev evs IH]; intros w C; [done|].
  destruct (step_cancelled ev w C) as [C' P'].
  destruct (IH _ C') as [C'' P'']. simpl. split; [done | congruence].
Qed.

Lemma step_rows ev w :
  is_foreign_write ev = false → rows (step this ev w) = rows w.
Proof.
  destruct ev as [i| |ms|e|f]; simpl; try done.
  intros _. by destruct (schedule_frame i w) as ((->&_)&_).
Qed.

(** The worker's loops never write to the table. *)
Lemma exec_rows evs w :
  forallb (λ ev, negb (is_foreign_write ev)) evs = true →
  rows (exec this evs w) = rows w.
Proof.
  revert w. induction evs as [|ev evs IH]; intros w F; [done|].
  simpl in F. apply andb_true_iff in F as [F1 F2].
  apply negb_true_iff in F1. simpl.
  rewrite (IH _ F2). by apply step_rows.
Qed.

Lemma step_settled ev w i o :
  loops w !! i = Some (Settled o) →
  loops (step this ev w) !! i = Some (Settled o).
Proof.
  intros L. destruct ev as [j| |ms|e|f]; simpl; try done.
  unfold schedule. destruct (loops w !! j) as [st|] eqn:Lj; [|done].
  destruct (runLoop_resume_frame st w) as (st' & w' & E & _ & Hl & _).
  rewrite E. simpl. rewrite Hl.
  destruct (decide (j = i)) as [-> | N].
  - rewrite L in Lj. injection Lj as <-. simpl in E. injection E as <- _.
    rewrite list_lookup_insert_eq; [done|]. by eapply lookup_lt_Some.
  - by rewrite list_lookup_insert_ne.
Qed.

(** A settled loop stays settled whatever happens next. *)
Lemma exec_settled evs w i o :
  loops w !! i = Some (Settled o) →
  loops (exec this evs w) !! i = Some (Settled o).
Proof.
  revert w. induction evs as [|ev evs IH]; intros w L; [done|].
  simpl. apply IH. by apply step_settled.
Qed.

(** [start] touches the table through [persistTask] only, and begins a
    loop exactly when [persistTask] returns. *)
Lemma start_unfold settings w :
  ∃ res w', start this settings w = (res, w') ∧
    match persistTask this settings w with
    | (Returned _, wp) =>
        res = Returned () ∧ same_store wp w' ∧
        length (loops w') = S (length (loops w))
    | (Thrown e, wp) => res = Thrown e ∧ w' = wp
    end.
Proof.
  unfold start. unfold mbind at 1, M_bind at 1.
  destruct (persistTask this settings w) as [[[]|e] wp] eqn:P.
  2:{ eexists _, _. by split. }
  assert (loops wp = loops w) as Lp.
  { unfold persistTask, lift, try_catch, knex_fn_now, gets,
      insert_onConflict_merge_settings_json, knex_query, modify, throw in P.
    unfold mbind, M_bind in P.
    destruct (taskSettingsV1Schema_parse settings); [|done].
    destruct (outage w); [done|]. by injection P as <-. }
  unfold log, modify, runLoop. unfold mbind, M_bind.
  destruct (runLoop_test_frame
              (set_logger (λ l, l ++ [(debug, "Task worker starting: " +:+ taskId this +:+ ", " +:+ JSON_stringify settings)]) wp))
    as (st & w' & -> & (?&?&?&?) & Hl & _).
  eexists _, _. split; [done|]. split; [done|]. split; [by repeat split|].
  simpl. rewrite Hl. simpl. rewrite length_app, Lp. simpl. lia.
Qed.

(** *** Claims about [start] and [persistTask] *)

Lemma start_rethrows_schema_error settings w e :
  taskSettingsV1Schema_parse settings = Thrown e →
  start this settings w = (Thrown e, w).
Proof.
  intros E. unfold start. apply bind_thrown. by apply persistTask_invalid.
Qed.

(** C6. When the settings fail the schema, [start] throws to its
    caller and nothing else happens: no row is written, nothing is
    logged, and no loop is begun (the world is left as it was). *)
Theorem start_invalid_settings settings w e :
  taskSettingsV1Schema_parse settings = Thrown e →
  start this settings w = (Thrown e, w).
Proof. apply start_rethrows_schema_error. Qed.

Lemma persistTask_existing settings w r :
  rows w !! taskId this = Some r →
  ∃ res w', persistTask this settings w = (res, w') ∧
    (∀ id', id' ≠ taskId this → rows w' !! id' = rows w !! id') ∧
    rows w' !! taskId this =
      Some {| settings_json := match res with
                               | Returned _ => JSON_stringify settings
                               | Thrown _ => settings_json r
                               end;
              next_run_start_at := next_run_start_at r;
              current_run_ticket := current_run_ticket r |}.
Proof.
  intros R.
  destruct (taskSettingsV1Schema_parse settings) as [v|e] eqn:V.
  2:{ eexists _, _. split; [by apply persistTask_invalid|]. split; [done|].
      rewrite R. by destruct r. }
  destruct (outage w) as [e|] eqn:O.
  { eexists _, _. split; [by eapply persistTask_outage|]. split; [done|].
    rewrite R. by destruct r. }
  eexists _, _. split; [by eapply persistTask_ok|].
  unfold upserted. simpl. rewrite R. split.
  - intros id' N. by rewrite lookup_insert_ne.
  - by rewrite lookup_insert_eq.
Qed.

(** C2. When a record for the task already exists, [start] leaves its
    [next_run_start_at] and [current_run_ticket] as they were (and
    every other record untouched); [settings_json] is the one column
    written, and holds the new settings once [start] returns. *)
Theorem start_existing_overwrites_settings_only settings w r :
  rows w !! taskId this = Some r →
  ∃ res w', start this settings w = (res, w') ∧
    (∀ id', id' ≠ taskId this → rows w' !! id' = rows w !! id') ∧
    rows w' !! taskId this =
      Some {| settings_json := match res with
                               | Returned _ => JSON_stringify settings
                               | Thrown _ => settings_json r
                               end;
              next_run_start_at := next_run_start_at r;
              current_run_ticket := current_run_ticket r |}.
Proof.
  intros R.
  destruct (persistTask_existing settings w r R) as (pres & wp & P & Hother & Hrow).
  destruct (start_unfold settings w) as (res & w' & S & Hs).
  rewrite P in Hs. exists res, w'. split; [done|].
  destruct pres as [[]|e].
  - destruct Hs as (-> & (Hr & _) & _). rewrite Hr. done.
  - destruct Hs as (-> & ->). done.
Qed.

(** C7. When no record exists for the task (and the settings are valid
    and the store is reachable), [start] inserts a record with a null
    ticket whose [next_run_start_at] is the database's now plus
    [initialDelayDuration] when the settings carry that field, and
    now when they do not. *)
Theorem start_new_record settings w v :
  taskSettingsV1Schema_parse settings = Returned v →
  outage w = None →
  rows w !! taskId this = None →
  ∃ w' r, start this settings w = (Returned (), w') ∧
    rows w' !! taskId this = Some r ∧
    settings_json r = JSON_stringify settings ∧
    current_run_ticket r = None ∧
    (initialDelayDuration settings = None → next_run_start_at r = clock w) ∧
    (∀ d, initialDelayDuration settings = Some d → d ≠ "" →
          next_run_start_at r = clock w + Duration_fromISO d).
Proof.
  intros V O R.
  destruct (start_unfold settings w) as (res & w' & S & Hs).
  rewrite (persistTask_ok settings w v V O) in Hs.
  destruct Hs as (-> & (Hr & _) & _).
  eexists w', _. split; [done|]. rewrite Hr. unfold upserted. simpl.
  rewrite R, lookup_insert_eq. split; [done|]. simpl.
  split; [done|]. split; [done|]. unfold initialDelay. split.
  - by intros ->.
  - intros d -> N. by rewrite bool_decide_eq_false_2.
Qed.

(** C8. Calling [start] again with the same settings, after a first
    call that created the record, leaves the stored records exactly
    as the first call left them, whatever the worker, the clock and
    the connection did in between. *)
Theorem start_twice_same_record settings w w1 evs :
  rows w !! taskId this = None →
  start this settings w = (Returned (), w1) →
  forallb (λ ev, negb (is_foreign_write ev)) evs = true →
  rows (start this settings (exec this evs w1)).2 = rows w1.
Proof.
  intros R S1 F.
  assert (∃ v, taskSettingsV1Schema_parse settings = Returned v) as [v V].
  { destruct (taskSettingsV1Schema_parse settings) as [v|e] eqn:V; [by eexists|].
    rewrite (start_rethrows_schema_error settings w e V) in S1. done. }
  assert (∃ r, rows w1 !! taskId this = Some r ∧
               settings_json r = JSON_stringify settings) as (r & R1 & J1).
  { destruct (start_unfold settings w) as (res & w' & S & Hs).
    rewrite S1 in S. injection S as <- <-.
    destruct (persistTask this settings w) as [[[]|e] wp] eqn:P.
    2:{ by destruct Hs. }
    destruct Hs as (_ & (Hr & _) & _).
    destruct (outage w) as [e|] eqn:O.
    { by rewrite (persistTask_outage settings w v e V O) in P. }
    rewrite (persistTask_ok settings w v V O) in P. injection P as <-.
    rewrite Hr. unfold upserted. simpl. rewrite R, lookup_insert_eq. by eexists. }
  pose proof (exec_rows evs w1 F) as Hx.
  set (w2 := exec this evs w1) in *.
  assert (rows w2 !! taskId this = Some r) as R2 by by rewrite Hx.
  destruct (start_unfold settings w2) as (res & w' & S & Hs).
  rewrite S. simpl.
  destruct (persistTask_existing settings w2 r R2) as (pres & wp & P & Hother & Hrow).
  rewrite P in Hs.
  assert (rows wp = rows w2) as Hp.
  { apply map_eq. intros id'. destruct (decide (id' = taskId this)) as [-> | N].
    - rewrite Hrow, R2. destruct pres; destruct r; simpl in *; by subst.
    - by apply Hother. }
  destruct pres as [[]|e].
  - destruct Hs as (_ & (Hr & _) & _). congruence.
  - destruct Hs as (_ & ->). congruence.
Qed.

(** *** Claims about the poll step *)

(** C9. [runOnce] always returns, and what it returns is one of
    'not ready yet', 'abort' and 'completed'; 'failed' never comes
    back. *)
Theorem runOnce_never_failed w :
  ∃ res w', runOnce this w = (Returned res, w') ∧
            (res = RNotReadyYet ∨ res = RAbort ∨ res = RCompleted) ∧
            res ≠ RFailed.
Proof.
  destruct (runOnce_total w) as (res & w' & R & N & _).
  exists res, w'. split; [done|]. split; [|done].
  destruct res; auto. done.
Qed.

(** C3, as the code has it. When the store can be read, the task's row
    is due and unclaimed, and its [settings_json] fails to parse or to
    validate, the poll step yields 'abort' after one entry logged at
    info level; the loop that awaits this step settles at once by
    returning (it is logged as finished, not as failed) without
    beginning another poll, and from then on scheduling it does nothing:
    no further sleep and no further poll. *)
Theorem unparsable_settings_stop_the_loop w i r e :
  outage w = None →
  eligible this w r →
  unparsable (settings_json r) e →
  loops w !! i = Some InPoll →
  runOnce this w = (Returned RAbort, logged (info_abort e) w) ∧
  loops (schedule this i w) !! i = Some (Settled (Returned ())) ∧
  logger (schedule this i w) = logger w ++ [info_abort e; log_finished this] ∧
  polls (schedule this i w) = polls w ∧
  ∀ evs, loops (exec this evs (schedule this i w)) !! i = Some (Settled (Returned ())) ∧
         schedule this i (exec this evs (schedule this i w)) = exec this evs (schedule this i w).
Proof.
  intros O E U L.
  assert (runOnce this w = (Returned RAbort, logged (info_abort e) w)) as R
    by by eapply runOnce_abort.
  split; [done|].
  rewrite (schedule_at _ _ _ _ _ L (runLoop_polled_abort _ _ R)).
  assert (loops (set_loops (λ l, <[i := Settled (Returned ())]> l)
            (logged (log_finished this) (logged (info_abort e) w))) !! i
          = Some (Settled (Returned ()))) as Ls.
  { simpl. rewrite list_lookup_insert_eq; [done|]. by eapply lookup_lt_Some. }
  split; [done|]. split; [simpl; by rewrite <- app_assoc|]. split; [done|].
  intros evs. pose proof (exec_settled evs _ _ _ Ls) as Le.
  split; [done|]. by eapply schedule_settled.
Qed.

(** C4. When the store read throws, the poll step catches the error,
    logs it as a warning and yields 'not ready yet'; the loop that
    awaits the step does not settle but sleeps for the standard
    interval: scheduled before the interval is over it stays asleep,
    scheduled once it is over it begins another poll (nobody having
    called [stop]). *)
Theorem store_failure_keeps_polling w i e :
  outage w = Some e →
  isCancelled (cancelToken w) = false →
  loops w !! i = Some InPoll →
  runOnce this w = (Returned RNotReadyYet, logged (warn_fetch e) w) ∧
  loops (schedule this i w) !! i = Some (InSleep (clock w + WORK_CHECK_FREQUENCY)) ∧
  logger (schedule this i w) = logger w ++ [warn_fetch e] ∧
  (∀ ms, Z.of_N ms < WORK_CHECK_FREQUENCY →
         schedule this i (step this (Elapse ms) (schedule this i w))
         = step this (Elapse ms) (schedule this i w)) ∧
  (∀ ms, WORK_CHECK_FREQUENCY ≤ Z.of_N ms →
         loops (schedule this i (step this (Elapse ms) (schedule this i w))) !! i
         = Some InPoll ∧
         polls (schedule this i (step this (Elapse ms) (schedule this i w)))
         = S (polls w)).
Proof.
  intros O C L.
  assert (runOnce this w = (Returned RNotReadyYet, logged (warn_fetch e) w)) as R
    by by apply runOnce_outage.
  split; [done|].
  assert (RNotReadyYet ≠ RAbort) as N by done.
  rewrite (schedule_at _ _ _ _ _ L (runLoop_polled_sleep _ _ _ R N)).
  pose proof (lookup_lt_Some _ _ _ L) as Hi.
  set (w1 := set_loops _ _).
  assert (∀ ms, loops (step this (Elapse ms) w1) !! i
                = Some (InSleep (clock w + WORK_CHECK_FREQUENCY))) as L1.
  { intros ms. simpl. by rewrite list_lookup_insert_eq. }
  split; [exact (L1 0%N)|]. split; [done|]. split.
  - intros ms Hms. apply (schedule_asleep _ _ _ (L1 ms)).
    unfold sleep_settled, CancelTokenOps.promise_resolved. simpl. rewrite C.
    rewrite bool_decide_eq_false_2; [done | lia].
  - intros ms Hms.
    assert (sleep_settled (clock w + WORK_CHECK_FREQUENCY) (step this (Elapse ms) w1) = true) as Sl.
    { unfold sleep_settled. simpl. rewrite bool_decide_eq_true_2; [done | lia]. }
    assert (isCancelled (cancelToken (step this (Elapse ms) w1)) = false) as C1 by done.
    pose proof (runLoop_test_live _ C1) as K.
    rewrite <- (runLoop_resume_awake _ _ Sl) in K.
    rewrite (schedule_at _ _ _ _ _ (L1 ms) K). simpl.
    split; [|done]. rewrite list_lookup_insert_eq; [done|]. by rewrite length_insert.
Qed.

(** *** Claims about [stop] *)

(** C5. [stop] is idempotent. Once it has been called, no event
    sequence makes any loop begin another poll; a loop whose sleep was
    still pending finds the sleep settled by the token, although its
    timer is not due and no time has passed, and when next scheduled it
    leaves the loop at the cancellation test and returns. *)
Theorem stop_ends_polling w i timerAt evs :
  loops w !! i = Some (InSleep timerAt) →
  sleep_settled timerAt w = false →
  (stop (stop w).2).2 = (stop w).2 ∧
  isCancelled (cancelToken (stop w).2) = true ∧
  clock (stop w).2 < timerAt ∧
  sleep_settled timerAt (stop w).2 = true ∧
  loops (schedule this i (stop w).2) !! i = Some (Settled (Returned ())) ∧
  polls (schedule this i (stop w).2) = polls w ∧
  clock (schedule this i (stop w).2) = clock w ∧
  polls (exec this evs (stop w).2) = polls w.
Proof.
  intros L Sl. split; [done|]. split; [done|].
  unfold sleep_settled in Sl. apply orb_false_iff in Sl as [St _].
  apply bool_decide_eq_false_1 in St.
  split; [simpl; lia|].
  assert (sleep_settled timerAt (stop w).2 = true) as Sl'.
  { unfold sleep_settled. simpl. apply orb_true_r. }
  split; [done|].
  assert (isCancelled (cancelToken (stop w).2) = true) as C by done.
  pose proof (runLoop_test_cancelled _ C) as K.
  rewrite <- (runLoop_resume_awake _ _ Sl') in K.
  assert (loops (stop w).2 !! i = Some (InSleep timerAt)) as L' by done.
  rewrite (schedule_at _ _ _ _ _ L' K).
  split; [|split; [done|split; [done|]]].
  - simpl. rewrite list_lookup_insert_eq; [done|]. by eapply lookup_lt_Some.
  - by destruct (exec_cancelled evs _ C) as [_ ->].
Qed.

End Properties.

(** ** The properties on the sample runtime *)

(** The scenario [start('t1', {initialDelayDuration: 'PT0S'})]: the row
    is inserted due at the time of the call; the poll begun inside
    [start] finds nothing yet, the next one, five seconds later, finds
    the row and completes, and the row is as it was inserted. *)
Example scenario_PT0S :
  rows (exec (rt := sample_externals) worker_t1
          [Schedule 0%nat; Elapse 5000; Schedule 0%nat; Schedule 0%nat]
          (start (rt := sample_externals) worker_t1 settings_PT0S world0).2) !! "t1"
    = Some {| settings_json := sample_stringify settings_PT0S;
              next_run_start_at := 1000;
              current_run_ticket := None |} ∧
  loops (exec (rt := sample_externals) worker_t1
           [Schedule 0%nat; Elapse 5000; Schedule 0%nat; Schedule 0%nat]
           (start (rt := sample_externals) worker_t1 settings_PT0S world0).2)
    = [InSleep 11000] ∧
  polls (exec (rt := sample_externals) worker_t1
           [Schedule 0%nat; Elapse 5000; Schedule 0%nat; Schedule 0%nat]
           (start (rt := sample_externals) worker_t1 settings_PT0S world0).2)
    = 2%nat.
Proof. vm_compute. repeat split; reflexivity. Qed.

Lemma start_invalid_settings_witness :
  taskSettingsV1Schema_parse (Externals := sample_externals) JNull
    = Thrown "ZodError: Expected object" ∧
  start (rt := sample_externals) worker_t1 JNull world0
    = (Thrown "ZodError: Expected object", world0).
Proof.
  split; [reflexivity|].
  apply (@start_invalid_settings sample_externals worker_t1 JNull world0).
  reflexivity.
Defined.

Lemma start_existing_overwrites_settings_only_witness :
  rows world_claimed !! taskId worker_t1 = Some row_claimed ∧
  ∃ res w', start (rt := sample_externals) worker_t1 settings_PT5S world_claimed = (res, w') ∧
    (∀ id', id' ≠ taskId worker_t1 → rows w' !! id' = rows world_claimed !! id') ∧
    rows w' !! taskId worker_t1 =
      Some {| settings_json := match res with
                               | Returned _ => sample_stringify settings_PT5S
                               | Thrown _ => settings_json row_claimed
                               end;
              next_run_start_at := 7000;
              current_run_ticket := Some "abc" |}.
Proof.
  split; [reflexivity|].
  apply (@start_existing_overwrites_settings_only sample_externals worker_t1
           settings_PT5S world_claimed row_claimed).
  reflexivity.
Defined.

Lemma start_new_record_witness :
  taskSettingsV1Schema_parse (Externals := sample_externals) settings_PT5S
    = Returned settings_PT5S ∧
  outage world0 = None ∧
  rows world0 !! taskId worker_t1 = None ∧
  ∃ w' r, start (rt := sample_externals) worker_t1 settings_PT5S world0 = (Returned (), w') ∧
    rows w' !! taskId worker_t1 = Some r ∧
    settings_json r = sample_stringify settings_PT5S ∧
    current_run_ticket r = None ∧
    (initialDelayDuration settings_PT5S = None → next_run_start_at r = clock world0) ∧
    (∀ d, initialDelayDuration settings_PT5S = Some d → d ≠ "" →
          next_run_start_at r = clock world0 + sample_fromISO d).
Proof.
  split; [reflexivity|]. split; [reflexivity|]. split; [reflexivity|].
  apply (@start_new_record sample_externals worker_t1 settings_PT5S world0 settings_PT5S);
    reflexivity.
Defined.

Lemma start_twice_same_record_witness :
  rows world0 !! taskId worker_t1 = None ∧
  start (rt := sample_externals) worker_t1 settings_PT5S world0
    = (Returned (), (start (rt := sample_externals) worker_t1 settings_PT5S world0).2) ∧
  forallb (λ ev, negb (is_foreign_write ev))
    [Schedule 0%nat; Elapse 6000; Schedule 0%nat; Schedule 0%nat] = true ∧
  (start (rt := sample_externals) worker_t1 settings_PT5S
     (exec (rt := sample_externals) worker_t1
        [Schedule 0%nat; Elapse 6000; Schedule 0%nat; Schedule 0%nat]
        (start (rt := sample_externals) worker_t1 settings_PT5S world0).2)).1
  = Returned () ∧
  clock (exec (rt := sample_externals) worker_t1
           [Schedule 0%nat; Elapse 6000; Schedule 0%nat; Schedule 0%nat]
           (start (rt := sample_externals) worker_t1 settings_PT5S world0).2) = 7000 ∧
  rows (start (rt := sample_externals) worker_t1 settings_PT5S world0).2 !! taskId worker_t1
  = Some {| settings_json := sample_stringify settings_PT5S;
            next_run_start_at := 6000;
            current_run_ticket := None |} ∧
  rows (start (rt := sample_externals) worker_t1 settings_PT5S
          (exec (rt := sample_externals) worker_t1
             [Schedule 0%nat; Elapse 6000; Schedule 0%nat; Schedule 0%nat]
             (start (rt := sample_externals) worker_t1 settings_PT5S world0).2)).2
  = rows (start (rt := sample_externals) worker_t1 settings_PT5S world0).2.
Proof.
  split; [reflexivity|]. split; [vm_compute; reflexivity|].
  split; [reflexivity|]. split; [vm_compute; reflexivity|].
  split; [vm_compute; reflexivity|]. split; [vm_compute; reflexivity|].
  apply (@start_twice_same_record sample_externals worker_t1 settings_PT5S world0);
    [reflexivity | vm_compute; reflexivity | reflexivity].
Defined.

(** C1, on the code. The step of the claim is not what [runOnce] does:
    on the due, unclaimed row of [world_due], whose settings parse, it
    reports 'completed' and leaves the world as it found it. The row
    is still unclaimed and still due with its old [next_run_start_at],
    and the log is empty although every run of the work function
    leaves an entry: no ticket was set, the work function was not
    invoked, and nothing was rescheduled. *)
Theorem runOnce_completes_without_running :
  outage world_due = None ∧
  eligible worker_t1 world_due row_due ∧
  parses (rt := sample_externals) (settings_json row_due) settings_PT0S ∧
  runOnce (rt := sample_externals) worker_t1 world_due = (Returned RCompleted, world_due) ∧
  rows (runOnce (rt := sample_externals) worker_t1 world_due).2 !! taskId worker_t1
    = Some row_due ∧
  current_run_ticket row_due = None ∧
  next_run_start_at row_due < clock (runOnce (rt := sample_externals) worker_t1 world_due).2 ∧
  logger (runOnce (rt := sample_externals) worker_t1 world_due).2 = [] ∧
  (∀ u, (info, "work done"%string) ∈ logger (fn worker_t1 u).2).
Proof.
  split; [reflexivity|].
  split; [split; [reflexivity|]; split; reflexivity|].
  split; [exists settings_PT0S; split; reflexivity|].
  split; [vm_compute; reflexivity|].
  split; [vm_compute; reflexivity|]. split; [reflexivity|].
  split; [vm_compute; reflexivity|]. split; [vm_compute; reflexivity|].
  intros u. simpl. apply elem_of_app. right. apply list_elem_of_singleton. reflexivity.
Qed.

(** C1, as the specification words it, fails on the code: on a due,
    unclaimed row with readable settings the step the code takes is not
    a claim-run-release step; the row keeps its old [next_run_start_at]. *)
Lemma runOnce_does_not_claim_counterexample :
  outage world_due = None ∧
  eligible worker_t1 world_due row_due ∧
  parses (rt := sample_externals) (settings_json row_due) settings_PT0S ∧
  ¬ spec_step_ran worker_t1 world_due
      (runOnce (rt := sample_externals) worker_t1 world_due).2.
Proof.
  split; [reflexivity|].
  split; [split; [reflexivity|]; split; reflexivity|].
  split; [exists settings_PT0S; split; reflexivity|].
  intros (r & ticket & claimed & worked & next & R & -> & -> & Hnext & Hw').
  apply (f_equal (λ x, next_run_start_at <$> (rows x !! "t1"))) in Hw'.
  change (rows (runOnce (rt := sample_externals) worker_t1 world_due).2) with (rows world_due) in Hw'.
  simpl in Hw'. rewrite lookup_insert_eq in Hw'.
  change (rows world_due !! "t1") with (Some row_due) in Hw'.
  vm_compute in Hw'. injection Hw' as <-.
  vm_compute in Hnext. by apply Hnext.
Qed.

Lemma unparsable_settings_stop_the_loop_witness :
  outage world_loop_superseded = None ∧
  eligible worker_t1 world_loop_superseded (row_superseded 0) ∧
  unparsable (rt := sample_externals) (settings_json (row_superseded 0)) syntax_error ∧
  loops world_loop_superseded !! 0%nat = Some InPoll ∧
  runOnce (rt := sample_externals) worker_t1 world_loop_superseded
    = (Returned RAbort, logged (info_abort syntax_error) world_loop_superseded) ∧
  loops (schedule (rt := sample_externals) worker_t1 0 world_loop_superseded) !! 0%nat
    = Some (Settled (Returned ())).
Proof.
  assert (eligible worker_t1 world_loop_superseded (row_superseded 0)) as E.
  { split; [reflexivity|]. split; reflexivity. }
  assert (unparsable (rt := sample_externals) (settings_json (row_superseded 0)) syntax_error) as U.
  { left. reflexivity. }
  split; [reflexivity|]. split; [exact E|]. split; [exact U|].
  split; [reflexivity|].
  pose proof (@unparsable_settings_stop_the_loop sample_externals worker_t1
                world_loop_superseded 0%nat (row_superseded 0) syntax_error
                eq_refl E U eq_refl) as (R & L & _).
  split; [exact R | exact L].
Defined.

(** C3, as the specification words it, fails on the code: a row whose
    payload is not JSON but which is not due yet is not even read; the
    step yields 'not ready yet' and the loop goes to sleep. *)
Lemma unparsable_not_due_counterexample :
  rows world_loop_not_due !! taskId worker_t1 = Some (row_superseded 5000) ∧
  unparsable (rt := sample_externals) (settings_json (row_superseded 5000)) syntax_error ∧
  runOnce (rt := sample_externals) worker_t1 world_loop_not_due
    = (Returned RNotReadyYet, world_loop_not_due) ∧
  loops (schedule (rt := sample_externals) worker_t1 0 world_loop_not_due) !! 0%nat
    = Some (InSleep 6000).
Proof.
  split; [reflexivity|]. split; [left; reflexivity|].
  split; [vm_compute; reflexivity|]. vm_compute. reflexivity.
Qed.

Lemma store_failure_keeps_polling_witness :
  outage world_loop_offline = Some connect_error ∧
  isCancelled (cancelToken world_loop_offline) = false ∧
  loops world_loop_offline !! 0%nat = Some InPoll ∧
  runOnce (rt := sample_externals) worker_t1 world_loop_offline
    = (Returned RNotReadyYet, logged (warn_fetch connect_error) world_loop_offline) ∧
  loops (schedule (rt := sample_externals) worker_t1 0 world_loop_offline) !! 0%nat
    = Some (InSleep (clock world_loop_offline + WORK_CHECK_FREQUENCY)) ∧
  polls (schedule (rt := sample_externals) worker_t1 0
           (step (rt := sample_externals) worker_t1 (Elapse 5000)
              (schedule (rt := sample_externals) worker_t1 0 world_loop_offline)))
    = S (polls world_loop_offline).
Proof.
  split; [reflexivity|]. split; [reflexivity|]. split; [reflexivity|].
  pose proof (@store_failure_keeps_polling sample_externals worker_t1
                world_loop_offline 0%nat connect_error
                eq_refl eq_refl eq_refl) as (R & L & _ & _ & P).
  split; [exact R|]. split; [exact L|]. apply (P 5000%N). vm_compute. discriminate.
Defined.

Lemma stop_ends_polling_witness :
  loops world_asleep !! 0%nat = Some (InSleep 6000) ∧
  sleep_settled 6000 world_asleep = false ∧
  loops (schedule (rt := sample_externals) worker_t1 0 (stop world_asleep).2) !! 0%nat
    = Some (Settled (Returned ())) ∧
  polls (exec (rt := sample_externals) worker_t1
           [Elapse 10000; Schedule 0%nat; Outage None; Schedule 0%nat]
           (stop world_asleep).2)
    = polls world_asleep.
Proof.
  split; [reflexivity|]. split; [reflexivity|].
  pose proof (@stop_ends_polling sample_externals worker_t1 world_asleep 0%nat 6000
                [Elapse 10000; Schedule 0%nat; Outage None; Schedule 0%nat]
                eq_refl eq_refl) as (_ & _ & _ & _ & L & _ & _ & P).
  split; [exact L | exact P].
Defined.

(* =================================================================== *)
(** ** Further properties of the worker *)
(* =================================================================== *)

Section Coverage.
Context `{rt : Externals}.
Variable this : TaskWorker.

(** *** The poll step, case by case *)

Lemma ready_row_eligible w r :
  rows w !! taskId this = Some r →
  ready_row (clock w) r = true →
  eligible this w r.
Proof.
  intros R Rdy. unfold ready_row in Rdy.
  apply andb_true_iff in Rdy as [D F].
  apply bool_decide_eq_true_1 in D. apply bool_decide_eq_true_1 in F. done.
Qed.

Lemma eligible_unique w r r' :
  eligible this w r → eligible this w r' → r = r'.
Proof. intros (R & _) (R' & _). congruence. Qed.

Lemma parses_not_unparsable settingsJson settings e :
  parses settingsJson settings → unparsable settingsJson e → False.
Proof.
  intros (parsed & P & S) [P' | (parsed' & P' & S')]; [congruence|].
  rewrite P in P'. injection P' as <-. congruence.
Qed.

(** The four ways a poll step can go. *)
Lemma runOnce_cases w :
  (∃ e, outage w = Some e ∧
        runOnce this w = (Returned RNotReadyYet, logged (warn_fetch e) w)) ∨
  (outage w = None ∧ (∀ r, ¬ eligible this w r) ∧
   runOnce this w = (Returned RNotReadyYet, w)) ∨
  (outage w = None ∧
   ∃ r e, eligible this w r ∧ unparsable (settings_json r) e ∧
          runOnce this w = (Returned RAbort, logged (info_abort e) w)) ∨
  (outage w = None ∧
   ∃ r settings, eligible this w r ∧ parses (settings_json r) settings ∧
                 runOnce this w = (Returned RCompleted, w)).
Proof.
  destruct (outage w) as [e|] eqn:O.
  { left. exists e. split; [done|]. by apply runOnce_outage. }
  right.
  destruct (rows w !! taskId this) as [r|] eqn:R.
  2:{ left. split; [done|].
      assert (∀ r, ¬ eligible this w r) as N by (intros r (R' & _); congruence).
      split; [done|]. by apply runOnce_no_row. }
  destruct (ready_row (clock w) r) eqn:Rdy.
  2:{ left. split; [done|].
      assert (∀ r', ¬ eligible this w r') as N.
      { intros r' E. pose proof (eligible_ready _ _ _ E) as Rdy'.
        destruct E as (R' & _). congruence. }
      split; [done|]. by apply runOnce_no_row. }
  right. pose proof (ready_row_eligible _ _ R Rdy) as E.
  destruct (JSON_parse (settings_json r)) as [parsed|e] eqn:P.
  - destruct (taskSettingsV1Schema_parse parsed) as [settings|e] eqn:S.
    + right. split; [done|]. exists r, settings.
      assert (parses (settings_json r) settings) as Hp by (by exists parsed).
      split; [done|]. split; [done|]. by eapply runOnce_ready.
    + left. split; [done|]. exists r, e.
      assert (unparsable (settings_json r) e) as Hu by (right; by exists parsed).
      split; [done|]. split; [done|]. by eapply runOnce_abort.
  - left. split; [done|]. exists r, e.
    assert (unparsable (settings_json r) e) as Hu by by left.
    split; [done|]. split; [done|]. by eapply runOnce_abort.
Qed.

(** X7. With the store reachable, a task that has no row, whose row is
    not yet due (its [next_run_start_at] is now or later: the comparison
    is strict), or whose row carries a ticket, is reported 'not ready
    yet' without a log entry; the step leaves the world as it was and
    never looks at the stored settings. *)
Theorem runOnce_not_ready_is_silent w :
  outage w = None →
  (rows w !! taskId this = None ∨
   ∃ r, rows w !! taskId this = Some r ∧
        (clock w ≤ next_run_start_at r ∨ current_run_ticket r ≠ None)) →
  runOnce this w = (Returned RNotReadyYet, w).
Proof.
  intros O Hrow. apply runOnce_no_row; [done|].
  intros r' (R' & Hdue & Hfree).
  destruct Hrow as [R | (r & R & [Hlate | Hheld])].
  - congruence.
  - rewrite R in R'. injection R' as <-. lia.
  - rewrite R in R'. injection R' as <-. done.
Qed.

(** X8. The poll step yields 'abort' exactly when the store is reachable
    and the task's row is due, unclaimed and unreadable, and 'completed'
    exactly when the store is reachable and the row is due, unclaimed and
    readable; in every other situation it yields 'not ready yet'. *)
Theorem runOnce_decision w :
  ((runOnce this w).1 = Returned RAbort ↔
   outage w = None ∧ ∃ r e, eligible this w r ∧ unparsable (settings_json r) e) ∧
  ((runOnce this w).1 = Returned RCompleted ↔
   outage w = None ∧ ∃ r settings, eligible this w r ∧ parses (settings_json r) settings) ∧
  ((runOnce this w).1 = Returned RNotReadyYet ↔
   outage w ≠ None ∨ ∀ r, ¬ eligible this w r).
Proof.
  destruct (runOnce_cases w) as
    [(e & O & R) | [(O & N & R) | [(O & r & e & E & U & R) | (O & r & s & E & P & R)]]];
    rewrite R; simpl.
  - split; [|split].
    + split; [done|]. intros (O' & _). congruence.
    + split; [done|]. intros (O' & _). congruence.
    + split; [|done]. intros _. left. congruence.
  - split; [|split].
    + split; [done|]. intros (_ & r & _ & E & _). by destruct (N r).
    + split; [done|]. intros (_ & r & _ & E & _). by destruct (N r).
    + split; [|done]. intros _. by right.
  - split; [|split].
    + split; [|done]. intros _. split; [done|]. by exists r, e.
    + split; [done|]. intros (_ & r' & s & E' & P).
      rewrite <- (eligible_unique _ _ _ E E') in P.
      destruct (parses_not_unparsable _ _ _ P U).
    + split; [done|]. intros [O' | N]; [congruence|]. by destruct (N r).
  - split; [|split].
    + split; [done|]. intros (_ & r' & e & E' & U).
      rewrite <- (eligible_unique _ _ _ E E') in U.
      destruct (parses_not_unparsable _ _ _ P U).
    + split; [|done]. intros _. split; [done|]. by exists r, s.
    + split; [done|]. intros [O' | N]; [congruence|]. by destruct (N r).
Qed.

(** X9. A poll step never writes: the table, the clock, the token, the
    loops and the poll count are as before, and the log grows by at
    most one entry. *)
Theorem runOnce_only_logs w :
  rows (runOnce this w).2 = rows w ∧
  clock (runOnce this w).2 = clock w ∧
  outage (runOnce this w).2 = outage w ∧
  cancelToken (runOnce this w).2 = cancelToken w ∧
  loops (runOnce this w).2 = loops w ∧
  polls (runOnce this w).2 = polls w ∧
  ∃ entries, logger (runOnce this w).2 = logger w ++ entries ∧
             (length entries ≤ 1)%nat.
Proof.
  destruct (runOnce_total this w) as (res & w' & R & _ & Hw'). rewrite R. simpl.
  destruct Hw' as [-> | [entry ->]]; do 6 (split; [done|]).
  - exists []. split; [by rewrite app_nil_r | simpl; lia].
  - exists [entry]. split; [done | simpl; lia].
Qed.

(** *** [start], case by case *)

Lemma runLoop_live w :
  isCancelled (cancelToken w) = false →
  runLoop this w = (Returned (), set_loops (λ l, l ++ [InPoll]) (set_polls S w)).
Proof.
  intros C. unfold runLoop. by erewrite bind_returned; [| by apply runLoop_test_live].
Qed.

Lemma runLoop_cancelled w :
  isCancelled (cancelToken w) = true →
  runLoop this w
  = (Returned (), set_loops (λ l, l ++ [Settled (Returned ())]) (logged (log_finished this) w)).
Proof.
  intros C. unfold runLoop. by erewrite bind_returned; [| by apply runLoop_test_cancelled].
Qed.

Lemma start_persisted settings w v :
  taskSettingsV1Schema_parse settings = Returned v →
  outage w = None →
  start this settings w
  = runLoop this (logged (log_starting this settings) (upserted this settings w)).
Proof.
  intros V O. unfold start.
  by erewrite bind_returned; [| by eapply persistTask_ok].
Qed.

(** What a call of [start] that returned has stored. *)
Lemma start_stored settings w w1 :
  start this settings w = (Returned (), w1) →
  ∃ v r, taskSettingsV1Schema_parse settings = Returned v ∧
         outage w = None ∧
         rows w1 = rows (upserted this settings w) ∧
         rows w1 !! taskId this = Some r ∧
         settings_json r = JSON_stringify settings.
Proof.
  intros S1.
  destruct (taskSettingsV1Schema_parse settings) as [v|e] eqn:V.
  2:{ by rewrite (start_rethrows_schema_error this settings w e V) in S1. }
  destruct (outage w) as [e|] eqn:O.
  { unfold start in S1.
    erewrite bind_thrown in S1; [done | by eapply persistTask_outage]. }
  assert (rows w1 = rows (upserted this settings w)) as Hr.
  { rewrite (start_persisted settings w v V O) in S1.
    destruct (isCancelled (cancelToken (logged (log_starting this settings)
                                          (upserted this settings w)))) eqn:C.
    - rewrite (runLoop_cancelled _ C) in S1. by injection S1 as <-.
    - rewrite (runLoop_live _ C) in S1. by injection S1 as <-. }
  exists v. rewrite Hr. unfold upserted. simpl.
  destruct (rows w !! taskId this) as [old|];
    rewrite lookup_insert_eq; by eexists.
Qed.

Lemma persistTask_frame settings w :
  (∀ id', id' ≠ taskId this →
          rows (persistTask this settings w).2 !! id' = rows w !! id') ∧
  clock (persistTask this settings w).2 = clock w ∧
  outage (persistTask this settings w).2 = outage w ∧
  cancelToken (persistTask this settings w).2 = cancelToken w.
Proof.
  destruct (taskSettingsV1Schema_parse settings) as [v|e] eqn:V.
  2:{ by rewrite (persistTask_invalid this settings w e V). }
  destruct (outage w) as [e|] eqn:O.
  { by rewrite (persistTask_outage this settings w v e V O). }
  rewrite (persistTask_ok this settings w v V O). simpl.
  split; [|done]. intros id' N.
  destruct (rows w !! taskId this); by rewrite lookup_insert_ne.
Qed.

Lemma step_loops_length ev w :
  length (loops (step this ev w)) = length (loops w).
Proof.
  destruct ev as [i| |ms|e|f]; simpl; try done.
  unfold schedule. destruct (loops w !! i) as [st|]; [|done].
  destruct (runLoop_resume_frame this st w) as (st' & w' & -> & _ & Hl & _).
  simpl. by rewrite length_insert, Hl.
Qed.

Lemma exec_loops_length evs w :
  length (loops (exec this evs w)) = length (loops w).
Proof.
  revert w. induction evs as [|ev evs IH]; intros w; [done|].
  simpl. by rewrite IH, step_loops_length.
Qed.

(** X3. When the settings are valid but the upsert throws, [start]
    throws an error that wraps the cause as
    "Error: Failed to persist task, <cause>", and nothing else has
    happened: no row, no log entry, no loop. *)
Theorem start_store_outage settings w v e :
  taskSettingsV1Schema_parse settings = Returned v →
  outage w = Some e →
  start this settings w = (Thrown ("Error: Failed to persist task, " +:+ e), w).
Proof.
  intros V O. unfold start. apply bind_thrown. by eapply persistTask_outage.
Qed.


(** X5. [start] called after [stop] still upserts the record, but its
    loop leaves at once: no poll is begun, the loop is settled as
    returned, and the log shows the worker starting and finishing. *)
Theorem start_after_stop settings w v :
  taskSettingsV1Schema_parse settings = Returned v →
  outage w = None →
  ∃ w', start this settings (stop w).2 = (Returned (), w') ∧
        rows w' = rows (upserted this settings w) ∧
        logger w' = logger w ++ [log_starting this settings; log_finished this] ∧
        loops w' = loops w ++ [Settled (Returned ())] ∧
        polls w' = polls w.
Proof.
  intros V O.
  assert (outage (stop w).2 = None) as O' by done.
  rewrite (start_persisted settings _ v V O').
  eexists. split; [by apply runLoop_cancelled|].
  split; [done|]. split; [simpl; by rewrite <- app_assoc|]. done.
Qed.

(** X6. Whatever its outcome, [start] touches no row but the task's own
    and leaves the clock, the reachability of the store and the cancel
    token as they were. *)
Theorem start_touches_own_row_only settings w :
  (∀ id', id' ≠ taskId this →
          rows (start this settings w).2 !! id' = rows w !! id') ∧
  clock (start this settings w).2 = clock w ∧
  outage (start this settings w).2 = outage w ∧
  cancelToken (start this settings w).2 = cancelToken w.
Proof.
  destruct (start_unfold this settings w) as (res & w' & S & Hs). rewrite S. simpl.
  pose proof (persistTask_frame settings w) as (Hr & Hc & Ho & Ht).
  destruct (persistTask this settings w) as [[[]|e] wp]; simpl in *.
  - destruct Hs as (_ & (Hr' & Hc' & Ho' & Ht') & _).
    rewrite Hr', Hc', Ho', Ht'. done.
  - destruct Hs as (_ & ->). done.
Qed.

(** X10. The initial parse does what its comment says. If [start]
    returned and the settings survive [JSON.parse(JSON.stringify(..))],
    the stored [settings_json] can be read back, and as long as nobody
    else writes to the table no later poll step yields 'abort'. *)
Theorem stored_settings_read_back settings w w1 evs :
  start this settings w = (Returned (), w1) →
  JSON_parse (JSON_stringify settings) = Returned settings →
  forallb (λ ev, negb (is_foreign_write ev)) evs = true →
  (∃ r v, rows w1 !! taskId this = Some r ∧ parses (settings_json r) v) ∧
  (runOnce this (exec this evs w1)).1 ≠ Returned RAbort.
Proof.
  intros S1 RT F.
  destruct (start_stored settings w w1 S1) as (v & r & V & _ & _ & R1 & J1).
  assert (parses (settings_json r) v) as P.
  { exists settings. by rewrite J1. }
  split; [by exists r, v|].
  destruct (runOnce_cases (exec this evs w1)) as
    [(e & _ & R) | [(_ & _ & R) | [(_ & r' & e & E & U & _) | (_ & _ & _ & _ & _ & R)]]];
    try (by rewrite R).
  destruct E as (R' & _). rewrite (exec_rows this evs w1 F), R1 in R'.
  injection R' as <-. destruct (parses_not_unparsable _ _ _ P U).
Qed.

(** X16. [start] does not look for a loop that is already running: a
    second call that returns adds a second loop next to the first,
    whatever happened in between. *)
Theorem start_twice_two_loops settings1 settings2 w w1 w2 evs :
  start this settings1 w = (Returned (), w1) →
  start this settings2 (exec this evs w1) = (Returned (), w2) →
  length (loops w2) = S (S (length (loops w))).
Proof.
  intros S1 S2.
  assert (∀ settings u u', start this settings u = (Returned (), u') →
                           length (loops u') = S (length (loops u))) as Hone.
  { intros settings u u' Su.
    destruct (start_unfold this settings u) as (res & u'' & S & Hs).
    rewrite Su in S. injection S as <- <-.
    destruct (persistTask this settings u) as [[[]|e] wp].
    - by destruct Hs as (_ & _ & ?).
    - by destruct Hs as (? & _). }
  rewrite (Hone _ _ _ S2), exec_loops_length. by rewrite (Hone _ _ _ S1).
Qed.

(** *** Runs of the loops *)

Lemma elapsed_nonneg evs : 0 ≤ elapsed evs.
Proof.
  induction evs as [|ev evs IH]; simpl; [done|].
  destruct ev; lia.
Qed.

(** Time passes through [Elapse] only. *)
Lemma exec_clock evs w :
  clock (exec this evs w) = clock w + elapsed evs.
Proof.
  revert w. induction evs as [|ev evs IH]; intros w; simpl; [lia|].
  rewrite IH. destruct ev as [i| |ms|e|f]; simpl; try lia.
  destruct (schedule_frame this i w) as ((_ & -> & _) & _). lia.
Qed.

(** X11. A row that carries a ticket is never found ready: as long as
    nobody else writes to the table, every poll step of the worker,
    however late, reports 'not ready yet'; nothing in the worker clears
    a ticket. *)
Theorem claimed_row_never_ready w r evs :
  rows w !! taskId this = Some r →
  current_run_ticket r ≠ None →
  forallb (λ ev, negb (is_foreign_write ev)) evs = true →
  (runOnce this (exec this evs w)).1 = Returned RNotReadyYet.
Proof.
  intros R T F.
  assert (∀ r', ¬ eligible this (exec this evs w) r') as N.
  { intros r' (R' & _ & Hfree). rewrite (exec_rows this evs w F), R in R'.
    injection R' as <-. done. }
  destruct (runOnce_cases (exec this evs w)) as
    [(e & _ & ->) | [(_ & _ & ->) | [(_ & r' & e & E & _) | (_ & r' & s & E & _)]]];
    try done; by destruct (N r').
Qed.

(** X12. A task that is due stays due: once its row is due, unclaimed
    and readable, every later poll step that reaches the store reports
    'completed' again and changes nothing, as long as nobody else writes
    to the table; the worker itself never moves [next_run_start_at]. *)
Theorem due_task_completes_at_every_poll w r settings evs :
  eligible this w r →
  parses (settings_json r) settings →
  forallb (λ ev, negb (is_foreign_write ev)) evs = true →
  outage (exec this evs w) = None →
  runOnce this (exec this evs w) = (Returned RCompleted, exec this evs w).
Proof.
  intros (R & Hdue & Hfree) P F O.
  apply (runOnce_ready this _ r settings); [done| |done].
  split; [by rewrite (exec_rows this evs w F)|]. split; [|done].
  rewrite exec_clock. pose proof (elapsed_nonneg evs). lia.
Qed.

Lemma runLoop_resume_not_rejected st w st' w' :
  runLoop_resume this st w = (Returned st', w') →
  rejected st = false →
  rejected st' = false.
Proof.
  intros E Rj. destruct st as [|timerAt|o].
  - simpl in E. destruct (runOnce_total this w) as (res & w1 & R & _ & _).
    destruct (decide (res = RAbort)) as [-> | N].
    + rewrite (runLoop_polled_abort this _ _ R) in E. by injection E as <- _.
    + rewrite (runLoop_polled_sleep this _ _ _ R N) in E. by injection E as <- _.
  - destruct (sleep_settled timerAt w) eqn:S.
    + rewrite (runLoop_resume_awake this _ _ S) in E.
      destruct (isCancelled (cancelToken w)) eqn:C.
      * rewrite (runLoop_test_cancelled this _ C) in E. by injection E as <- _.
      * rewrite (runLoop_test_live this _ C) in E. by injection E as <- _.
    + rewrite (runLoop_resume_asleep this _ _ S) in E. by injection E as <- _.
  - simpl in E. by injection E as <- _.
Qed.

Lemma step_not_rejected ev w :
  Forall (λ st, rejected st = false) (loops w) →
  Forall (λ st, rejected st = false) (loops (step this ev w)).
Proof.
  intros Hall. destruct ev as [i| |ms|e|f]; simpl; try done.
  unfold schedule. destruct (loops w !! i) as [st|] eqn:L; [|done].
  destruct (runLoop_resume_frame this st w) as (st' & w' & E & _ & Hl & _).
  rewrite E. simpl. rewrite Hl. apply Forall_insert; [done|].
  apply (runLoop_resume_not_rejected _ _ _ _ E).
  by apply (Forall_lookup_1 _ _ _ _ Hall L).
Qed.

(** X15. The loop never throws: if no loop's promise is rejected to
    begin with (as in a fresh worker), none is after any sequence of
    events, nor after a further call of [start]; the handler that logs
    "Task worker failed unexpectedly" is never run. *)
Theorem loops_are_never_rejected w evs settings :
  Forall (λ st, rejected st = false) (loops w) →
  Forall (λ st, rejected st = false) (loops (exec this evs w)) ∧
  Forall (λ st, rejected st = false) (loops (start this settings (exec this evs w)).2).
Proof.
  intros Hall.
  assert (Forall (λ st, rejected st = false) (loops (exec this evs w))) as Hx.
  { revert w Hall. induction evs as [|ev evs IH]; intros w Hall; [done|].
    simpl. apply IH. by apply step_not_rejected. }
  split; [done|]. set (u := exec this evs w) in *.
  destruct (taskSettingsV1Schema_parse settings) as [v|e] eqn:V.
  2:{ by rewrite (start_rethrows_schema_error this settings u e V). }
  destruct (outage u) as [e|] eqn:O.
  { unfold start. erewrite bind_thrown; [done | by eapply persistTask_outage]. }
  rewrite (start_persisted settings u v V O).
  destruct (isCancelled (cancelToken (logged (log_starting this settings)
                                        (upserted this settings u)))) eqn:C.
  - rewrite (runLoop_cancelled _ C). simpl. apply Forall_app. split; [done|].
    by apply Forall_singleton.
  - rewrite (runLoop_live _ C). simpl. apply Forall_app. split; [done|].
    by apply Forall_singleton.
Qed.

(** X14. After [stop], a loop needs no time and at most two turns to
    leave: whatever it was awaiting, after being scheduled twice it is
    settled as returned, with the clock where it was and no poll begun. *)
Theorem stopped_loop_settles_in_two_turns w i st :
  isCancelled (cancelToken w) = true →
  loops w !! i = Some st →
  rejected st = false →
  loops (schedule this i (schedule this i w)) !! i = Some (Settled (Returned ())) ∧
  clock (schedule this i (schedule this i w)) = clock w ∧
  polls (schedule this i (schedule this i w)) = polls w.
Proof.
  intros C L Rj. pose proof (lookup_lt_Some _ _ _ L) as Hi.
  assert (∀ u, isCancelled (cancelToken u) = true → loops u !! i = Some st →
               clock u = clock w → polls u = polls w →
               (st = InPoll → False) →
               loops (schedule this i u) !! i = Some (Settled (Returned ())) ∧
               clock (schedule this i u) = clock w ∧
               polls (schedule this i u) = polls w) as Hleave.
  { intros u Cu Lu Hc Hp Hst. destruct st as [|timerAt|[[]|e]]; [done| |..|done].
    - assert (sleep_settled timerAt u = true) as S.
      { unfold sleep_settled, CancelTokenOps.promise_resolved. rewrite Cu. apply orb_true_r. }
      pose proof (runLoop_test_cancelled this _ Cu) as K.
      rewrite <- (runLoop_resume_awake this _ _ S) in K.
      rewrite (schedule_at this _ _ _ _ _ Lu K). simpl.
      split; [|done]. rewrite list_lookup_insert_eq; [done|]. by eapply lookup_lt_Some.
    - by rewrite (schedule_settled this _ _ _ Lu). }
  assert (st = InPoll ∨ st ≠ InPoll) as [-> | N]
    by (destruct st; [by left | by right | by right]).
  2:{ destruct (Hleave w C L eq_refl eq_refl N) as (L1 & C1 & P1).
      rewrite (schedule_settled this _ _ _ L1). done. }
  destruct (runOnce_total this w) as (res & w' & R & _ & Hw').
  assert (isCancelled (cancelToken w') = true ∧ loops w' = loops w ∧
          clock w' = clock w ∧ polls w' = polls w) as (C' & L' & Hc' & Hp').
  { by destruct Hw' as [-> | [entry ->]]. }
  destruct (decide (res = RAbort)) as [-> | Nres].
  - rewrite (schedule_at this _ _ _ _ _ L (runLoop_polled_abort this _ _ R)).
    set (w1 := set_loops _ _).
    assert (loops w1 !! i = Some (Settled (Returned ()))) as L1.
    { simpl. rewrite L'. by rewrite list_lookup_insert_eq. }
    rewrite (schedule_settled this _ _ _ L1). done.
  - rewrite (schedule_at this _ _ _ _ _ L (runLoop_polled_sleep this _ _ _ R Nres)).
    set (t := clock w' + WORK_CHECK_FREQUENCY). set (w1 := set_loops _ _).
    assert (loops w1 !! i = Some (InSleep t)) as L1.
    { simpl. rewrite L'. by rewrite list_lookup_insert_eq. }
    assert (sleep_settled t w1 = true) as S.
    { unfold sleep_settled, CancelTokenOps.promise_resolved. simpl. rewrite C'. apply orb_true_r. }
    assert (isCancelled (cancelToken w1) = true) as C1 by done.
    pose proof (runLoop_test_cancelled this _ C1) as K.
    rewrite <- (runLoop_resume_awake this _ _ S) in K.
    rewrite (schedule_at this _ _ _ _ _ L1 K). simpl.
    split; [|done]. rewrite list_lookup_insert_eq; [done|].
    rewrite length_insert. by rewrite L'.
Qed.

(** *** How often the loops poll *)

Lemma sum_list_insert (l : list nat) i x y :
  l !! i = Some y →
  (sum_list (<[i := x]> l) + y = sum_list l + x)%nat.
Proof.
  revert i. induction l as [|a l IH]; intros i L; [done|].
  destruct i as [|i]; simpl in *.
  - injection L as ->. lia.
  - pose proof (IH i L). lia.
Qed.

Lemma sum_wake_budget_le deadline (l : list LoopState) :
  (sum_list (wake_budget deadline <$> l) ≤ length l)%nat.
Proof.
  induction l as [|st l IH]; [done|].
  rewrite fmap_cons.
  change (wake_budget deadline st + sum_list (wake_budget deadline <$> l) ≤ S (length l))%nat.
  set (n := sum_list (wake_budget deadline <$> l)) in *.
  destruct st; simpl; [lia | case_bool_decide; lia | lia].
Qed.

(** The polls begun so far plus the polls the sleepers may still begin
    by [deadline]. *)
Lemma schedule_potential c0 deadline i w :
  c0 ≤ clock w → clock w ≤ deadline → deadline < c0 + WORK_CHECK_FREQUENCY →
  (polls (schedule this i w) + sum_list (wake_budget deadline <$> loops (schedule this i w))
   ≤ polls w + sum_list (wake_budget deadline <$> loops w))%nat.
Proof.
  intros Hc0 Hd Hwin.
  destruct (loops w !! i) as [st|] eqn:L.
  2:{ unfold schedule. by rewrite L. }
  assert ((wake_budget deadline <$> loops w) !! i = Some (wake_budget deadline st)) as Lb.
  { by rewrite list_lookup_fmap, L. }
  destruct st as [|timerAt|o].
  - destruct (runOnce_total this w) as (res & w' & R & _ & Hw').
    assert (loops w' = loops w ∧ clock w' = clock w ∧ polls w' = polls w) as (L' & Hc' & Hp').
    { by destruct Hw' as [-> | [entry ->]]. }
    destruct (decide (res = RAbort)) as [-> | Nres].
    + rewrite (schedule_at this _ _ _ _ _ L (runLoop_polled_abort this _ _ R)). simpl.
      rewrite L', Hp', list_fmap_insert.
      pose proof (sum_list_insert _ i (wake_budget deadline (Settled (Returned ()))) _ Lb).
      simpl in *. lia.
    + rewrite (schedule_at this _ _ _ _ _ L (runLoop_polled_sleep this _ _ _ R Nres)). simpl.
      rewrite L', Hp', list_fmap_insert.
      pose proof (sum_list_insert _ i
                    (wake_budget deadline (InSleep (clock w' + WORK_CHECK_FREQUENCY))) _ Lb) as Hs.
      simpl in Hs. rewrite bool_decide_eq_false_2 in Hs by lia.
      simpl. rewrite bool_decide_eq_false_2 by lia. lia.
  - destruct (sleep_settled timerAt w) eqn:S.
    2:{ by rewrite (schedule_asleep this _ _ _ L S). }
    destruct (isCancelled (cancelToken w)) eqn:C.
    + pose proof (runLoop_test_cancelled this _ C) as K.
      rewrite <- (runLoop_resume_awake this _ _ S) in K.
      rewrite (schedule_at this _ _ _ _ _ L K). simpl. rewrite list_fmap_insert.
      pose proof (sum_list_insert _ i (wake_budget deadline (Settled (Returned ()))) _ Lb).
      simpl in *. lia.
    + pose proof (runLoop_test_live this _ C) as K.
      rewrite <- (runLoop_resume_awake this _ _ S) in K.
      rewrite (schedule_at this _ _ _ _ _ L K). simpl. rewrite list_fmap_insert.
      pose proof (sum_list_insert _ i (wake_budget deadline InPoll) _ Lb) as Hs.
      unfold sleep_settled, CancelTokenOps.promise_resolved in S. rewrite C, orb_false_r in S.
      apply bool_decide_eq_true_1 in S.
      simpl in Hs. rewrite bool_decide_eq_true_2 in Hs by lia.
      change (wake_budget deadline InPoll) with 0%nat. lia.
  - by rewrite (schedule_settled this _ _ _ L).
Qed.

Lemma exec_potential c0 deadline evs w :
  c0 ≤ clock w → clock w + elapsed evs ≤ deadline →
  deadline < c0 + WORK_CHECK_FREQUENCY →
  (polls (exec this evs w) + sum_list (wake_budget deadline <$> loops (exec this evs w))
   ≤ polls w + sum_list (wake_budget deadline <$> loops w))%nat.
Proof.
  revert w. induction evs as [|ev evs IH]; intros w Hc0 Hd Hwin; [done|].
  pose proof (elapsed_nonneg evs) as Hnn.
  assert (clock (step this ev w) = clock w + elapsed [ev]) as Hstep
    by apply (exec_clock [ev] w).
  assert (elapsed (ev :: evs) = elapsed [ev] + elapsed evs) as Hsplit.
  { simpl. destruct ev; lia. }
  pose proof (elapsed_nonneg [ev]) as Hnn1.
  assert (polls (step this ev w) + sum_list (wake_budget deadline <$> loops (step this ev w))
          ≤ polls w + sum_list (wake_budget deadline <$> loops w))%nat as Hone.
  { destruct ev as [i| |ms|e|f]; simpl; try done.
    apply (schedule_potential c0); lia. }
  simpl. etrans; [apply IH; lia | exact Hone].
Qed.

(** X13. The loops poll no faster than the poll interval allows: during
    any run of events in which less than [WORK_CHECK_FREQUENCY]
    (5 seconds) passes, each loop begins at most one poll, however
    often it is scheduled. *)
Theorem at_most_one_poll_per_loop_per_interval w evs :
  elapsed evs < WORK_CHECK_FREQUENCY →
  (polls (exec this evs w) ≤ polls w + length (loops w))%nat.
Proof.
  intros Hwin.
  pose proof (exec_potential (clock w) (clock w + elapsed evs) evs w) as Hpot.
  pose proof (sum_wake_budget_le (clock w + elapsed evs) (loops w)).
  lia.
Qed.

End Coverage.

(** ** The further properties on the sample runtime *)

Lemma start_store_outage_witness :
  taskSettingsV1Schema_parse (Externals := sample_externals) settings_PT5S
    = Returned settings_PT5S ∧
  outage world_offline = Some connect_error ∧
  start (rt := sample_externals) worker_t1 settings_PT5S world_offline
    = (Thrown ("Error: Failed to persist task, " +:+ connect_error), world_offline).
Proof.
  split; [reflexivity|]. split; [reflexivity|].
  apply (@start_store_outage sample_externals worker_t1 settings_PT5S world_offline
           settings_PT5S connect_error); reflexivity.
Defined.


Lemma start_after_stop_witness :
  taskSettingsV1Schema_parse (Externals := sample_externals) settings_PT5S
    = Returned settings_PT5S ∧
  outage world0 = None ∧
  ∃ w', start (rt := sample_externals) worker_t1 settings_PT5S (stop world0).2
          = (Returned (), w') ∧
        rows w' = rows (upserted (rt := sample_externals) worker_t1 settings_PT5S world0) ∧
        logger w' = logger world0
                    ++ [log_starting (rt := sample_externals) worker_t1 settings_PT5S;
                        log_finished worker_t1] ∧
        loops w' = loops world0 ++ [Settled (Returned ())] ∧
        polls w' = polls world0.
Proof.
  split; [reflexivity|]. split; [reflexivity|].
  apply (@start_after_stop sample_externals worker_t1 settings_PT5S world0 settings_PT5S);
    reflexivity.
Defined.

Lemma runOnce_not_ready_is_silent_witness :
  outage world_claimed = None ∧
  (rows world_claimed !! taskId worker_t1 = None ∨
   ∃ r, rows world_claimed !! taskId worker_t1 = Some r ∧
        (clock world_claimed ≤ next_run_start_at r ∨ current_run_ticket r ≠ None)) ∧
  runOnce (rt := sample_externals) worker_t1 world_claimed
    = (Returned RNotReadyYet, world_claimed).
Proof.
  assert (rows world_claimed !! taskId worker_t1 = None ∨
          ∃ r, rows world_claimed !! taskId worker_t1 = Some r ∧
               (clock world_claimed ≤ next_run_start_at r ∨ current_run_ticket r ≠ None)) as Hrow.
  { right. exists row_claimed. split; [reflexivity|]. right. discriminate. }
  split; [reflexivity|]. split; [exact Hrow|].
  exact (@runOnce_not_ready_is_silent sample_externals worker_t1 world_claimed eq_refl Hrow).
Defined.

Lemma stored_settings_read_back_witness :
  start (rt := sample_externals) worker_t1 settings_PT5S world0
    = (Returned (), (start (rt := sample_externals) worker_t1 settings_PT5S world0).2) ∧
  JSON_parse (Externals := sample_externals)
    (JSON_stringify (Externals := sample_externals) settings_PT5S) = Returned settings_PT5S ∧
  (runOnce (rt := sample_externals) worker_t1
     (exec (rt := sample_externals) worker_t1
        [Schedule 0%nat; Elapse 6000; Schedule 0%nat]
        (start (rt := sample_externals) worker_t1 settings_PT5S world0).2)).1
  ≠ Returned RAbort.
Proof.
  split; [vm_compute; reflexivity|]. split; [vm_compute; reflexivity|].
  apply (@stored_settings_read_back sample_externals worker_t1 settings_PT5S world0
           (start (rt := sample_externals) worker_t1 settings_PT5S world0).2
           [Schedule 0%nat; Elapse 6000; Schedule 0%nat]);
    [vm_compute; reflexivity | vm_compute; reflexivity | reflexivity].
Defined.

Lemma start_twice_two_loops_witness :
  start (rt := sample_externals) worker_t1 settings_PT0S world0
    = (Returned (), (start (rt := sample_externals) worker_t1 settings_PT0S world0).2) ∧
  start (rt := sample_externals) worker_t1 settings_PT5S
    (exec (rt := sample_externals) worker_t1 [Schedule 0%nat; Elapse 100]
       (start (rt := sample_externals) worker_t1 settings_PT0S world0).2)
    = (Returned (),
       (start (rt := sample_externals) worker_t1 settings_PT5S
          (exec (rt := sample_externals) worker_t1 [Schedule 0%nat; Elapse 100]
             (start (rt := sample_externals) worker_t1 settings_PT0S world0).2)).2) ∧
  length (loops (start (rt := sample_externals) worker_t1 settings_PT5S
                   (exec (rt := sample_externals) worker_t1 [Schedule 0%nat; Elapse 100]
                      (start (rt := sample_externals) worker_t1 settings_PT0S world0).2)).2)
    = S (S (length (loops world0))).
Proof.
  split; [vm_compute; reflexivity|]. split; [vm_compute; reflexivity|].
  apply (@start_twice_two_loops sample_externals worker_t1 settings_PT0S settings_PT5S world0
           (start (rt := sample_externals) worker_t1 settings_PT0S world0).2 _
           [Schedule 0%nat; Elapse 100]);
    vm_compute; reflexivity.
Defined.

Lemma claimed_row_never_ready_witness :
  rows world_claimed !! taskId worker_t1 = Some row_claimed ∧
  current_run_ticket row_claimed ≠ None ∧
  (runOnce (rt := sample_externals) worker_t1
     (exec (rt := sample_externals) worker_t1 [Elapse 100000; Schedule 0%nat] world_claimed)).1
  = Returned RNotReadyYet.
Proof.
  split; [reflexivity|]. split; [discriminate|].
  apply (@claimed_row_never_ready sample_externals worker_t1 world_claimed row_claimed
           [Elapse 100000; Schedule 0%nat]);
    [reflexivity | discriminate | reflexivity].
Defined.

Lemma due_task_completes_at_every_poll_witness :
  eligible worker_t1 world_due row_due ∧
  parses (rt := sample_externals) (settings_json row_due) settings_PT0S ∧
  outage (exec (rt := sample_externals) worker_t1 [Elapse 5000; Stop] world_due) = None ∧
  runOnce (rt := sample_externals) worker_t1
    (exec (rt := sample_externals) worker_t1 [Elapse 5000; Stop] world_due)
  = (Returned RCompleted,
     exec (rt := sample_externals) worker_t1 [Elapse 5000; Stop] world_due).
Proof.
  assert (eligible worker_t1 world_due row_due) as E.
  { split; [reflexivity|]. split; reflexivity. }
  assert (parses (rt := sample_externals) (settings_json row_due) settings_PT0S) as P.
  { exists settings_PT0S. split; reflexivity. }
  split; [exact E|]. split; [exact P|]. split; [reflexivity|].
  exact (@due_task_completes_at_every_poll sample_externals worker_t1 world_due row_due
           settings_PT0S [Elapse 5000; Stop] E P eq_refl eq_refl).
Defined.

Lemma at_most_one_poll_per_loop_per_interval_witness :
  elapsed [Elapse 1000; Schedule 0%nat; Schedule 0%nat; Elapse 3999;
           Schedule 0%nat; Schedule 0%nat] < WORK_CHECK_FREQUENCY ∧
  (polls (exec (rt := sample_externals) worker_t1
            [Elapse 1000; Schedule 0%nat; Schedule 0%nat; Elapse 3999;
             Schedule 0%nat; Schedule 0%nat]
            (looping (InSleep 2000) world_due))
   ≤ polls (looping (InSleep 2000) world_due)
     + length (loops (looping (InSleep 2000) world_due)))%nat.
Proof.
  split; [reflexivity|].
  apply (@at_most_one_poll_per_loop_per_interval sample_externals worker_t1).
  reflexivity.
Defined.

Lemma stopped_loop_settles_in_two_turns_witness :
  isCancelled (cancelToken (stop world_loop_offline).2) = true ∧
  loops (stop world_loop_offline).2 !! 0%nat = Some InPoll ∧
  rejected InPoll = false ∧
  loops (schedule (rt := sample_externals) worker_t1 0
           (schedule (rt := sample_externals) worker_t1 0 (stop world_loop_offline).2)) !! 0%nat
    = Some (Settled (Returned ())).
Proof.
  split; [reflexivity|]. split; [reflexivity|]. split; [reflexivity|].
  exact (proj1 (@stopped_loop_settles_in_two_turns sample_externals worker_t1
                  (stop world_loop_offline).2 0%nat InPoll eq_refl eq_refl eq_refl)).
Defined.

Lemma loops_are_never_rejected_witness :
  Forall (λ st, rejected st = false) (loops world_asleep) ∧
  Forall (λ st, rejected st = false)
    (loops (exec (rt := sample_externals) worker_t1
              [Elapse 5000; Schedule 0%nat; Outage (Some connect_error); Schedule 0%nat]
              world_asleep)).
Proof.
  assert (Forall (λ st, rejected st = false) (loops world_asleep)) as Hall.
  { apply Forall_cons. split; [reflexivity | apply Forall_nil_2]. }
  split; [exact Hall|].
  exact (proj1 (@loops_are_never_rejected sample_externals worker_t1 world_asleep
                  [Elapse 5000; Schedule 0%nat; Outage (Some connect_error); Schedule 0%nat]
                  settings_PT0S Hall)).
Defined.

End TaskWorker.

(* ===================================================================== *)
(** * Properties of SimplePermissionHandler *)
(* ===================================================================== *)

(** C10. [handle] allows every request that comes with an identity;
    without one it allows exactly the read permissions and denies the
    rest; it never answers MAYBE. *)
Theorem SimplePermissionHandler_handle_decision :
  (∀ request identity,
     SimplePermissionHandler.result
       (SimplePermissionHandler.handle request (Some identity))
     = SimplePermissionHandler.ALLOW) ∧
  (∀ request,
     SimplePermissionHandler.result (SimplePermissionHandler.handle request None)
     = if SimplePermissionHandler.isRead (SimplePermissionHandler.permission request)
       then SimplePermissionHandler.ALLOW
       else SimplePermissionHandler.DENY) ∧
  (∀ request identity,
     SimplePermissionHandler.result (SimplePermissionHandler.handle request identity)
     ≠ SimplePermissionHandler.MAYBE).
Proof.
  split; [done|]. split.
  - intros request. simpl. by destruct (SimplePermissionHandler.isRead _).
  - intros request [identity|]; simpl; [done|].
    by destruct (SimplePermissionHandler.isRead _).
Qed.

(** X1. [authorizeFilters] never resolves with ALLOW. It resolves with
    DENY exactly when the permission is not a catalog permission or no
    identity is given; otherwise the identity's id is parsed as an
    entity reference, and the call resolves with MAYBE exactly when
    that succeeds and rejects with the parser's error exactly when it
    throws. Conditions come with MAYBE and only with MAYBE. *)
Theorem SimplePermissionHandler_authorizeFilters_decision
        (includes : SimplePermissionHandler.Permission → bool)
        (parseEntityRef : string → string → string →
                          SimplePermissionHandler.Filters.Try
                            SimplePermissionHandler.Filters.EntityName)
        (request : SimplePermissionHandler.AuthorizeRequest)
        (identity : option SimplePermissionHandler.BackstageIdentity) :
  (∀ response,
     SimplePermissionHandler.Filters.authorizeFilters includes parseEntityRef request identity
     = SimplePermissionHandler.Filters.Ok response →
     SimplePermissionHandler.Filters.result response ≠ SimplePermissionHandler.ALLOW ∧
     (is_Some (SimplePermissionHandler.Filters.conditions response) ↔
      SimplePermissionHandler.Filters.result response = SimplePermissionHandler.MAYBE)) ∧
  ((∃ response,
      SimplePermissionHandler.Filters.authorizeFilters includes parseEntityRef request identity
      = SimplePermissionHandler.Filters.Ok response ∧
      SimplePermissionHandler.Filters.result response = SimplePermissionHandler.DENY) ↔
   includes (SimplePermissionHandler.permission request) = false ∨ identity = None) ∧
  ((∃ response,
      SimplePermissionHandler.Filters.authorizeFilters includes parseEntityRef request identity
      = SimplePermissionHandler.Filters.Ok response ∧
      SimplePermissionHandler.Filters.result response = SimplePermissionHandler.MAYBE) ↔
   includes (SimplePermissionHandler.permission request) = true ∧
   ∃ i owner, identity = Some i ∧
              parseEntityRef (SimplePermissionHandler.id i) "user" "default"
              = SimplePermissionHandler.Filters.Ok owner) ∧
  (∀ e,
     SimplePermissionHandler.Filters.authorizeFilters includes parseEntityRef request identity
     = SimplePermissionHandler.Filters.Throws e ↔
     includes (SimplePermissionHandler.permission request) = true ∧
     ∃ i, identity = Some i ∧
          parseEntityRef (SimplePermissionHandler.id i) "user" "default"
          = SimplePermissionHandler.Filters.Throws e).
Proof.
  unfold SimplePermissionHandler.Filters.authorizeFilters.
  destruct (includes _) eqn:I; [destruct identity as [i|];
    [destruct (parseEntityRef _ _ _) as [owner|e0] eqn:P|]|].
  - split; [|split; [|split]].
    + intros response [= <-]. simpl. split; [done|]. by split; [|eauto].
    + split; [by intros (response & [= <-] & ?) | by intros [|]].
    + split; [|by eexists]. intros _. split; [done|]. by exists i, owner.
    + intros e. split; [done|]. intros (_ & i' & [= <-] & P'). congruence.
  - split; [|split; [|split]].
    + by intros response.
    + split; [by intros (response & ? & _) | by intros [|]].
    + split; [by intros (response & ? & _)|].
      intros (_ & i' & owner & [= <-] & P'). congruence.
    + intros e. split.
      * intros [= <-]. split; [done|]. by exists i.
      * intros (_ & i' & [= <-] & P'). congruence.
  - split; [|split; [|split]].
    + intros response [= <-]. simpl. split; [done|]. split; [by intros [? ?] | done].
    + split; [by right | by eexists].
    + split; [by intros (response & [= <-] & ?) | by intros (_ & i & owner & ? & _)].
    + intros e. split; [done | by intros (_ & i & ? & _)].
  - split; [|split; [|split]].
    + intros response [= <-]. simpl. split; [done|]. split; [by intros [? ?] | done].
    + split; [by left | by eexists].
    + split; [by intros (response & [= <-] & ?) | by intros (? & _)].
    + intros e. split; [done | by intros (? & _)].
Qed.

(** X2. [authorizeFilters] is never more permissive than [handle]:
    whenever the call does not resolve with DENY (it resolves with
    MAYBE, or rejects), [handle] allows the same request for the same
    caller. *)
Theorem SimplePermissionHandler_filters_within_handle
        (includes : SimplePermissionHandler.Permission → bool)
        (parseEntityRef : string → string → string →
                          SimplePermissionHandler.Filters.Try
                            SimplePermissionHandler.Filters.EntityName)
        (request : SimplePermissionHandler.AuthorizeRequest)
        (identity : option SimplePermissionHandler.BackstageIdentity) :
  (∀ response,
     SimplePermissionHandler.Filters.authorizeFilters includes parseEntityRef request identity
     = SimplePermissionHandler.Filters.Ok response →
     SimplePermissionHandler.Filters.result response ≠ SimplePermissionHandler.DENY) →
  SimplePermissionHandler.result (SimplePermissionHandler.handle request identity)
  = SimplePermissionHandler.ALLOW.
Proof.
  unfold SimplePermissionHandler.Filters.authorizeFilters.
  destruct identity as [i|]; [done|].
  intros N. exfalso. destruct (includes _); by eapply N.
Qed.

Lemma SimplePermissionHandler_filters_within_handle_witness :
  SimplePermissionHandler.Filters.authorizeFilters
    SimplePermissionHandler.Filters.sample_includes
    SimplePermissionHandler.Filters.sample_parseEntityRef
    SimplePermissionHandler.Filters.request_catalog_delete
    (Some SimplePermissionHandler.Filters.identity_blank)
  = SimplePermissionHandler.Filters.Throws "Error: Entity reference must not be empty" ∧
  (∀ response,
     SimplePermissionHandler.Filters.authorizeFilters
       SimplePermissionHandler.Filters.sample_includes
       SimplePermissionHandler.Filters.sample_parseEntityRef
       SimplePermissionHandler.Filters.request_catalog_delete
       (Some SimplePermissionHandler.Filters.identity_alice)
     = SimplePermissionHandler.Filters.Ok response →
     SimplePermissionHandler.Filters.result response ≠ SimplePermissionHandler.DENY) ∧
  SimplePermissionHandler.result
    (SimplePermissionHandler.handle
       SimplePermissionHandler.Filters.request_catalog_delete
       (Some SimplePermissionHandler.Filters.identity_alice))
  = SimplePermissionHandler.ALLOW.
Proof.
  assert (∀ response,
     SimplePermissionHandler.Filters.authorizeFilters
       SimplePermissionHandler.Filters.sample_includes
       SimplePermissionHandler.Filters.sample_parseEntityRef
       SimplePermissionHandler.Filters.request_catalog_delete
       (Some SimplePermissionHandler.Filters.identity_alice)
     = SimplePermissionHandler.Filters.Ok response →
     SimplePermissionHandler.Filters.result response ≠ SimplePermissionHandler.DENY) as N.
  { intros response E. vm_compute in E. injection E as <-. discriminate. }
  split; [vm_compute; reflexivity|]. split; [exact N|].
  exact (SimplePermissionHandler_filters_within_handle _ _ _ _ N).
Defined.
